(** * StadyPlanManager: device-bound registration and progress sync

    A shallow embedding of the HTTP handlers of the repository and of the
    PostgreSQL store they talk to.  Three generations of the API are
    embedded, one module each:

    - [ServerJs]: the monolithic [src/server.js] (bearer-token variant);
    - [RoutesV1]: [src/unnamed/part_001], the first split-out router
      (same behaviour as [server.js], objects handed to [pg] unserialised);
    - [RoutesV2]: [src/unnamed/part_000], the current router (cookie login,
      generic login error, self-healing [GET /progress], image proxy).

    The [POST /register] handler is the same code in all three files and is
    embedded once, in [Registration].

    What stands in front of the handlers is Express's: a request that
    [registerLimiter] or [loginLimiter] turns away (429) or whose body
    [express.json()] cannot parse never reaches a handler, and is not a
    request here.  [bcrypt], [jsonwebtoken], [fetch] and [URL] are
    parameters of the development.

    Besides these, the intake of client logs with its rate limiter
    ([ClientLog]), the proxy to the CMS ([Materials]), the preparation of
    the schema at startup ([Startup]) and the device id the browser keeps
    ([Browser]) are embedded; their logger, CMS and [crypto] are parameters
    as well.

    Layout: JavaScript values and JSON, HTTP responses, the PostgreSQL model
    ([Pg]) with its promise monad, the handlers, concrete deployments for
    the examples, then the proofs. *)

From stdpp Require Import base strings gmap list pretty.
From Stdlib Require Import ZArith Lia Ascii.

Local Open Scope string_scope.
Local Open Scope Z_scope.

(** ** JavaScript values *)

(** JSON values as [JSON.parse] produces them (numbers: the integers).
    Objects are finite maps from keys to values, so that Leibniz equality on
    [json] is structural JSON equality: the order in which the keys of an
    object were written is not part of the value (a JSONB column does not
    keep it either). *)
#[warnings="-register-all"]
Inductive json : Type :=
  | JNull
  | JBool (b : bool)
  | JNum (n : Z)
  | JStr (s : string)
  | JArr (items : list json)
  | JObj (fields : gmap string json).

(** A request field or header that may be missing is an [option string],
    [None] being [undefined].  [truthy x] is [!!x]: the empty string and
    [undefined] are the falsy ones. *)
Definition truthy (x : option string) : bool :=
  match x with
  | Some s => negb (String.eqb s "")
  | None => false
  end.

(** An [Error] object as the handlers look at it: [error.code] (set by [pg]
    to the SQLSTATE of a failed statement) and [error.message]. *)
Record jserror : Type := JsError {
  code : option string;
  message : string
}.

(** The settled state of a promise. *)
Inductive outcome (A : Type) : Type :=
  | Resolved (a : A)
  | Rejected (e : jserror).
Arguments Resolved {A} a.
Arguments Rejected {A} e.

(** ** HTTP responses *)

Inductive payload : Type :=
  | Json (j : json)              (* res.json(j) *)
  | Text (s : string)            (* res.send(string) / res.sendStatus *)
  | Binary (b : list Z)          (* res.send(Buffer) *)
  | NoBody.

Record cookie : Type := Cookie {
  cookie_name : string;
  cookie_value : string;
  httpOnly : bool;
  secure : bool;
  maxAge : Z
}.

Record response : Type := Response {
  status : Z;
  headers : list (string * string);   (* res.setHeader, in call order *)
  cookies : list cookie;              (* res.cookie *)
  body : payload
}.

(** [{ error: msg }] and the other one-field objects the handlers send. *)
Definition error_object (msg : string) : json := JObj {[ "error" := JStr msg ]}.

(** [res.status(c).json(j)] *)
Definition status_json (c : Z) (j : json) : response := Response c [] [] (Json j).

(** [res.json(j)]: the status stays at Express's default, 200. *)
Definition res_json (j : json) : response := status_json 200 j.

(** [res.status(c).send(text)] *)
Definition status_send (c : Z) (text : string) : response := Response c [] [] (Text text).

(** [res.sendStatus(c)]: the body is the reason phrase of the code. *)
Definition sendStatus (c : Z) : response :=
  status_send c (if c =? 401 then "Unauthorized"
                 else if c =? 403 then "Forbidden"
                 else pretty c).

(** What a client sees when an [async] handler rejects without having
    answered: Express gets no response from it. *)
Definition no_response : response := Response 0 [] [] NoBody.

(** ** The PostgreSQL store

    The schema is the one [initializeDatabase] creates in [src/server.js]:
<<
    users(id SERIAL PRIMARY KEY, username VARCHAR(50) UNIQUE NOT NULL,
          password VARCHAR(255) NOT NULL, created_at)
    device_registrations(id SERIAL PRIMARY KEY,
          device_id VARCHAR(255) UNIQUE NOT NULL,
          user_id INTEGER NOT NULL REFERENCES users(id), created_at)
    progress(user_id INTEGER PRIMARY KEY REFERENCES users(id),
          data JSONB, updated_at)
>>
    A table with a single key is a finite map from that key; the two tables
    with a serial [id] next to a [UNIQUE] column are lists of rows, checked
    against both constraints on insertion. *)
Module Pg.

Record users_row : Type := UsersRow {
  u_id : Z;
  u_username : string;
  u_password : string;
  u_created_at : Z
}.

Record device_registrations_row : Type := DeviceRow {
  d_id : Z;
  d_device_id : string;
  d_user_id : Z;
  d_created_at : Z
}.

Record progress_row : Type := ProgressRow {
  p_data : json;
  p_updated_at : Z
}.

Record tables : Type := Tables {
  users : list users_row;
  device_registrations : list device_registrations_row;
  progress : gmap Z progress_row          (* keyed by user_id *)
}.

(** The rows together with the two sequences behind the [SERIAL] columns.
    [nextval] is not transactional: a value drawn inside a transaction
    that rolls back is not given again. *)
Record database : Type := Database {
  rows : tables;
  users_id_seq : Z;
  device_registrations_id_seq : Z
}.

(** SQLSTATE codes the schema can raise. *)
Definition unique_violation : string := "23505".
Definition foreign_key_violation : string := "23503".
Definition string_data_right_truncation : string := "22001".
Definition invalid_text_representation : string := "22P02".

Definition sql_error (sqlstate msg : string) : jserror := JsError (Some sqlstate) msg.

(** [char_length] of a UTF-8 string: the bytes that are not continuation
    bytes (10xxxxxx).  [VARCHAR(n)] limits are counted in characters. *)
Definition continuation_byte (a : Ascii.ascii) : bool :=
  match a with
  | Ascii.Ascii _ _ _ _ _ _ b6 b7 => b7 && negb b6
  end.

Fixpoint char_length (s : string) : Z :=
  match s with
  | EmptyString => 0
  | String a s' => (if continuation_byte a then 0 else 1) + char_length s'
  end.

(** *** Transactions under READ COMMITTED

    A transaction is the list of its own writes; what one of its
    statements sees is the committed rows of that moment with the
    transaction's writes on top. *)
Inductive write : Type :=
  | WriteUser (r : users_row)
  | WriteDevice (r : device_registrations_row)
  | WriteProgress (user_id : Z) (r : progress_row).

Definition apply_write (t : tables) (w : write) : tables :=
  match w with
  | WriteUser r => Tables (users t ++ [r]) (device_registrations t) (progress t)
  | WriteDevice r => Tables (users t) (device_registrations t ++ [r]) (progress t)
  | WriteProgress uid r => Tables (users t) (device_registrations t) (<[uid := r]> (progress t))
  end.

Record transaction : Type := Transaction {
  started : Z;             (* CURRENT_TIMESTAMP inside the transaction *)
  writes : list write
}.

(** What happens around one round trip to the server: nothing, the call
    fails (connection lost, pool timeout, ...: the statement has no
    effect), or other sessions commit just before the statement runs. *)
Inductive event : Type :=
  | Quiet
  | Fault (e : jserror)
  | Meanwhile (others : database -> database).

(** The server between two requests: the committed database, the clock
    and the events still to come, one per round trip. *)
Record world : Type := World {
  committed : database;
  now : Z;
  env : list event
}.

(** One request at work: the world and the transaction its client has
    open, if any. *)
Record session : Type := Session {
  world_of : world;
  tx : option transaction
}.

Definition db (s : session) : database := committed (world_of s).

(** The rows a statement of this session reads. *)
Definition view (s : session) : tables :=
  match tx s with
  | Some t => foldl apply_write (rows (db s)) (writes t)
  | None => rows (db s)
  end.

Definition current_timestamp (s : session) : Z :=
  match tx s with
  | Some t => started t
  | None => now (world_of s)
  end.

Definition set_db (d : database) (s : session) : session :=
  Session (World d (now (world_of s)) (env (world_of s))) (tx s).

Definition set_tx (t : option transaction) (s : session) : session :=
  Session (world_of s) t.

(** A write goes to the open transaction, or straight to the committed
    rows when the statement runs on its own (autocommit). *)
Definition put (w : write) (s : session) : session :=
  match tx s with
  | Some t => set_tx (Some (Transaction (started t) (writes t ++ [w]))) s
  | None =>
      set_db (Database (apply_write (rows (db s)) w)
                       (users_id_seq (db s)) (device_registrations_id_seq (db s))) s
  end.

(** [nextval('users_id_seq')] and its sibling. *)
Definition nextval_users (s : session) : Z * session :=
  let n := users_id_seq (db s) + 1 in
  (n, set_db (Database (rows (db s)) n (device_registrations_id_seq (db s))) s).

Definition nextval_device_registrations (s : session) : Z * session :=
  let n := device_registrations_id_seq (db s) + 1 in
  (n, set_db (Database (rows (db s)) (users_id_seq (db s)) n) s).

(** The next round trip begins: time passes, the next event is taken off
    the list (none left: [Quiet]), other sessions' commits land. *)
Definition arrive (s : session) : option jserror * session :=
  let w := world_of s in
  match env w with
  | [] => (None, Session (World (committed w) (now w + 1) []) (tx s))
  | Quiet :: rest => (None, Session (World (committed w) (now w + 1) rest) (tx s))
  | Fault e :: rest => (Some e, Session (World (committed w) (now w + 1) rest) (tx s))
  | Meanwhile f :: rest => (None, Session (World (f (committed w)) (now w + 1) rest) (tx s))
  end.

(** *** Promises over a session

    An [async] function body: it runs against the session, and either
    resolves or rejects.  [await] is the bind. *)
Definition M (A : Type) : Type := session -> outcome A * session.

#[export] Instance M_ret : MRet M := λ A a s, (Resolved a, s).

#[export] Instance M_bind : MBind M := λ A B f m s,
  match m s with
  | (Resolved a, s') => f a s'
  | (Rejected e, s') => (Rejected e, s')
  end.

Definition throw {A} (e : jserror) : M A := λ s, (Rejected e, s).

(** [try { m } catch (e) { h e }] *)
Definition try_catch {A} (m : M A) (h : jserror -> M A) : M A := λ s,
  match m s with
  | (Resolved a, s') => (Resolved a, s')
  | (Rejected e, s') => h e s'
  end.

(** [try { m } finally { f }]: [f] runs whatever [m] did, also when [m]
    returned from the function; a rejection of [f] replaces the outcome. *)
Definition try_finally {A} (m : M A) (f : M unit) : M A := λ s,
  match m s with
  | (r, s') =>
      match f s' with
      | (Resolved _, s'') => (r, s'')
      | (Rejected e, s'') => (Rejected e, s'')
      end
  end.

(** One round trip: the event of the moment decides whether the
    statement runs at all. *)
Definition call {A} (stmt : session -> outcome A * session) : M A := λ s,
  match arrive s with
  | (Some e, s') => (Rejected e, s')
  | (None, s') => stmt s'
  end.

(** *** Parameters of type JSONB

    [server.js] passes [JSON.stringify(value)]; the routers pass the
    JavaScript value itself and leave the conversion to node-postgres,
    whose [prepareValue] sends a plain object as its JSON text but an
    array as a PostgreSQL array literal: a pair of braces for the empty
    array, which the JSONB input function reads as the empty object, and
    braces around the quoted elements for the others, which is not
    JSON. *)
Inductive structured : Type :=
  | Obj (fields : gmap string json)
  | Arr (items : list json).

Definition to_json (v : structured) : json :=
  match v with
  | Obj m => JObj m
  | Arr l => JArr l
  end.

Inductive data_param : Type :=
  | Stringified (j : json)         (* JSON.stringify(j) *)
  | Unserialized (v : structured). (* the value, converted by pg *)

Definition jsonb_in (p : data_param) : outcome json :=
  match p with
  | Stringified j => Resolved j
  | Unserialized (Obj m) => Resolved (JObj m)
  | Unserialized (Arr []) => Resolved (JObj ∅)
  | Unserialized (Arr (_ :: _)) =>
      Rejected (sql_error invalid_text_representation "invalid input syntax for type json")
  end.

(** *** The statements the handlers send *)

(** [pool.connect()]: a client with no transaction open. *)
Definition connect : M unit :=
  call (λ s, (Resolved (), set_tx None s)).

Definition BEGIN : M unit :=
  call (λ s, (Resolved (),
              match tx s with
              | Some _ => s
              | None => set_tx (Some (Transaction (now (world_of s)) [])) s
              end)).

Definition COMMIT : M unit :=
  call (λ s, (Resolved (),
              set_tx None
                (set_db (Database (view s) (users_id_seq (db s))
                                  (device_registrations_id_seq (db s))) s))).

Definition ROLLBACK : M unit :=
  call (λ s, (Resolved (), set_tx None s)).

(** [SELECT * FROM device_registrations WHERE device_id = $1] *)
Definition SELECT_device_registrations (device_id : string)
  : M (list device_registrations_row) :=
  call (λ s, (Resolved (filter (λ r, d_device_id r = device_id)
                               (device_registrations (view s))), s)).

(** [INSERT INTO users (username, password) VALUES ($1, $2)
     RETURNING id, username] *)
Definition INSERT_users (username password : string) : M (Z * string) :=
  call (λ s,
    let '(new_id, s) := nextval_users s in
    if (50 <? char_length username) || (255 <? char_length password) then
      (Rejected (sql_error string_data_right_truncation
                           "value too long for type character varying"), s)
    else if bool_decide (Exists (λ r, u_id r = new_id) (users (view s))) then
      (Rejected (sql_error unique_violation
                           "duplicate key value violates unique constraint users_pkey"), s)
    else if bool_decide (Exists (λ r, u_username r = username) (users (view s))) then
      (Rejected (sql_error unique_violation
                           "duplicate key value violates unique constraint users_username_key"), s)
    else
      (Resolved (new_id, username),
       put (WriteUser (UsersRow new_id username password (current_timestamp s))) s)).

(** [INSERT INTO device_registrations (device_id, user_id) VALUES ($1, $2)] *)
Definition INSERT_device_registrations (device_id : string) (user_id : Z) : M unit :=
  call (λ s,
    let '(new_id, s) := nextval_device_registrations s in
    if 255 <? char_length device_id then
      (Rejected (sql_error string_data_right_truncation
                           "value too long for type character varying"), s)
    else if bool_decide (Exists (λ r, d_id r = new_id) (device_registrations (view s))) then
      (Rejected (sql_error unique_violation
                           "duplicate key value violates unique constraint device_registrations_pkey"), s)
    else if bool_decide (Exists (λ r, d_device_id r = device_id)
                                (device_registrations (view s))) then
      (Rejected (sql_error unique_violation
                           "duplicate key value violates unique constraint device_registrations_device_id_key"), s)
    else if bool_decide (Exists (λ r, u_id r = user_id) (users (view s))) then
      (Resolved (),
       put (WriteDevice (DeviceRow new_id device_id user_id (current_timestamp s))) s)
    else
      (Rejected (sql_error foreign_key_violation
                           "insert violates foreign key constraint device_registrations_user_id_fkey"), s)).

(** [INSERT INTO progress (user_id, data) VALUES ($1, $2)] *)
Definition INSERT_progress (user_id : Z) (data : data_param) : M unit :=
  call (λ s,
    match jsonb_in data with
    | Rejected e => (Rejected e, s)
    | Resolved j =>
        if bool_decide (is_Some (progress (view s) !! user_id)) then
          (Rejected (sql_error unique_violation
                               "duplicate key value violates unique constraint progress_pkey"), s)
        else if bool_decide (Exists (λ r, u_id r = user_id) (users (view s))) then
          (Resolved (), put (WriteProgress user_id (ProgressRow j (current_timestamp s))) s)
        else
          (Rejected (sql_error foreign_key_violation
                               "insert violates foreign key constraint progress_user_id_fkey"), s)
    end).

(** [INSERT INTO progress (user_id, data) VALUES ($1, $2)
     ON CONFLICT (user_id) DO UPDATE SET data = $2,
                                         updated_at = CURRENT_TIMESTAMP] *)
Definition UPSERT_progress (user_id : Z) (data : data_param) : M unit :=
  call (λ s,
    match jsonb_in data with
    | Rejected e => (Rejected e, s)
    | Resolved j =>
        if bool_decide (is_Some (progress (view s) !! user_id)) then
          (Resolved (), put (WriteProgress user_id (ProgressRow j (current_timestamp s))) s)
        else if bool_decide (Exists (λ r, u_id r = user_id) (users (view s))) then
          (Resolved (), put (WriteProgress user_id (ProgressRow j (current_timestamp s))) s)
        else
          (Rejected (sql_error foreign_key_violation
                               "insert violates foreign key constraint progress_user_id_fkey"), s)
    end).

(** [SELECT * FROM users WHERE username = $1]; an [undefined] parameter
    is sent as NULL, and [username = NULL] holds of no row. *)
Definition SELECT_users (username : option string) : M (list users_row) :=
  call (λ s,
    (Resolved match username with
              | Some name => filter (λ r, u_username r = name) (users (view s))
              | None => []
              end, s)).

(** [SELECT data FROM progress WHERE user_id = $1] *)
Definition SELECT_progress_data (user_id : Z) : M (list json) :=
  call (λ s,
    (Resolved match progress (view s) !! user_id with
              | Some r => [p_data r]
              | None => []
              end, s)).

End Pg.

Import Pg.

(** ** Libraries the handlers call *)

(** The payload of a session token, and what [RETURNING id, username]
    yields: [{ id, username }]. *)
Record identity : Type := Identity {
  id : Z;
  username : string
}.

Definition identity_json (u : identity) : json :=
  JObj (<["id" := JNum (id u)]> {[ "username" := JStr (username u) ]}).

(** [bcrypt]: the digest [bcrypt.hash(data, 10)] resolves to and the
    verdict of [bcrypt.compare] on two strings. *)
Class Bcrypt : Type := {
  bcrypt_digest : string -> string;
  bcrypt_matches : string -> string -> bool
}.

(** [jsonwebtoken] under the process's [JWT_SECRET]: [jwt.sign] of a
    payload with [expiresIn: '7d'], and [jwt.verify], which yields the
    payload or an error (bad signature, expired, malformed). *)
Class Jsonwebtoken : Type := {
  jwt_sign : identity -> string;
  jwt_verify : string -> option identity
}.

(** [process.env.NODE_ENV === 'production'] *)
Class Process : Type := {
  production : bool
}.

Section Libraries.
Context `{Bcrypt}.

(** [bcrypt.hash(data, 10)]; the library rejects when [data] is missing. *)
Definition bcrypt_hash (data : option string) : M string :=
  match data with
  | Some d => mret (bcrypt_digest d)
  | None => throw (JsError None "data and salt arguments required")
  end.

(** [bcrypt.compare(data, hash)]; the library rejects when [data] is
    missing. *)
Definition bcrypt_compare (data : option string) (hash : string) : M bool :=
  match data with
  | Some d => mret (bcrypt_matches d hash)
  | None => throw (JsError None "data and hash arguments required")
  end.
End Libraries.

(** [client.release()]: the client goes back to the pool. *)
Definition release : M unit := mret ().

(** A query parameter that passed the [!x] test, as the string it is. *)
Definition text (x : option string) : string := default "" x.

(** Express runs an [async] handler against the server.  A transaction
    that the handler left open is never committed: it ends with the
    connection, so only the world comes back. *)
Definition serve (handler : M response) (w : world) : response * world :=
  match handler (Session w None) with
  | (Resolved res, s) => (res, world_of s)
  | (Rejected _, s) => (no_response, world_of s)
  end.

(** The document a new account starts with:
    [{ settings: { theme: 'light' }, lectures: {} }]. *)
Definition emptyProgress : structured :=
  Obj (<["settings" := JObj {[ "theme" := JStr "light" ]}]> {[ "lectures" := JObj ∅ ]}).

Definition server_error_message : string := "サーバーエラーが発生しました。".

(** ** POST /register

    [src/server.js] lines 62-105, [src/unnamed/part_000] lines 70-102 and
    [src/unnamed/part_001] lines 12-50: the same code up to logging and to
    how the default document is handed to [pg] ([bind_data]). *)
Module Registration.

Record body : Type := Body {
  username : option string;
  password : option string;
  deviceId : option string
}.

Definition fields_required : response :=
  status_json 400 (error_object "ユーザー名、パスワード、デバイスIDは必須です。").

Definition device_conflict : response :=
  status_json 403 (error_object "このデバイスからはすでにアカウントが登録されています。").

Definition username_conflict : response :=
  status_json 409 (error_object "このユーザー名はすでに存在します。").

Definition server_error : response :=
  status_json 500 (error_object server_error_message).

Definition created (newUser : Z * string) : response :=
  status_json 201 (identity_json (Identity (fst newUser) (snd newUser))).

Section Handler.
Context `{Bcrypt}.
Variable bind_data : structured -> data_param.

Definition post_register (req : body) : M response :=
  try_catch
    (if negb (truthy (username req)) || negb (truthy (password req))
        || negb (truthy (deviceId req)) then
       mret fields_required
     else
       hashedPassword ← bcrypt_hash (password req);
       _ ← connect;
       try_finally
         (try_catch
            (_ ← BEGIN;
             deviceCheck ← SELECT_device_registrations (text (deviceId req));
             if (0 <? Z.of_nat (length deviceCheck)) then
               _ ← ROLLBACK;
               mret device_conflict
             else
               newUser ← INSERT_users (text (username req)) hashedPassword;
               _ ← INSERT_device_registrations (text (deviceId req)) (fst newUser);
               _ ← INSERT_progress (fst newUser) (bind_data emptyProgress);
               _ ← COMMIT;
               mret (created newUser))
            (λ e, _ ← ROLLBACK; throw e))
         release)
    (λ error,
       if bool_decide (code error = Some unique_violation) then mret username_conflict
       else mret server_error).
End Handler.

End Registration.

(** The body of a login request. *)
Record credentials : Type := Credentials {
  login_username : option string;
  login_password : option string
}.

(** [req.body] behind [express.json()]: the parser in its default strict
    mode only yields objects and arrays, and [None] is a request whose body
    was not parsed. *)
Definition request_body : Type := option structured.

(** ** src/server.js *)
Module ServerJs.

Definition stringify (v : structured) : data_param := Stringified (to_json v).

(** [str.split(' ')]: the pieces between single spaces. *)
Fixpoint split_spaces (s : string) : list string :=
  match s with
  | EmptyString => [""]
  | String a rest =>
      if Ascii.eqb a " "%char then "" :: split_spaces rest
      else match split_spaces rest with
           | piece :: pieces => String a piece :: pieces
           | [] => [String a ""]
           end
  end.

(** Lines 49-50: [authHeader && authHeader.split(' ')[1]].  An empty header
    is itself the value of the expression; a header without a space has no
    second piece. *)
Definition bearer_token (authHeader : option string) : option string :=
  match authHeader with
  | None => None
  | Some h => if String.eqb h "" then Some h else split_spaces h !! 1%nat
  end.

Section Handlers.
Context `{Bcrypt} `{Jsonwebtoken}.

(** Lines 48-58.  [inl] is the response the guard sends itself, [inr] the
    [req.user] it hands to [next()]. *)
Definition authenticateToken (authorization : option string) : response + identity :=
  match bearer_token authorization with
  | None => inl (sendStatus 401)
  | Some token =>
      match jwt_verify token with
      | None => inl (sendStatus 403)
      | Some user => inr user
      end
  end.

(** [app.METHOD(path, authenticateToken, handler)] *)
Definition protected (handler : identity -> world -> response * world)
    (authorization : option string) (w : world) : response * world :=
  match authenticateToken authorization with
  | inl res => (res, w)
  | inr user => handler user w
  end.

(** Lines 62-105. *)
Definition post_register (req : Registration.body) : world -> response * world :=
  serve (Registration.post_register stringify req).

(** Lines 107-124. *)
Definition post_login (req : credentials) : world -> response * world :=
  serve (try_catch
    (rows ← SELECT_users (login_username req);
     match rows with
     | [] => mret (status_json 400 (error_object "ユーザーが見つかりません。"))
     | user :: _ =>
         matched ← bcrypt_compare (login_password req) (u_password user);
         if (matched : bool) then
           mret (res_json (JObj {[ "accessToken" :=
                   JStr (jwt_sign (Identity (u_id user) (u_username user))) ]}))
         else
           mret (status_json 401 (error_object "パスワードが正しくありません。"))
     end)
    (λ error, mret (status_json 500 (error_object server_error_message)))).

(** Lines 126-140. *)
Definition get_progress (user : identity) : world -> response * world :=
  serve (try_catch
    (result ← SELECT_progress_data (id user);
     match result with
     | data :: _ => mret (res_json data)
     | [] => mret (res_json (to_json emptyProgress))
     end)
    (λ error, mret (status_json 500 (error_object server_error_message)))).

Definition saved : response :=
  status_json 200 (JObj (<["success" := JBool true]>
                           {[ "message" := JStr "進捗が保存されました。" ]})).

(** Lines 142-160. *)
Definition post_progress (user : identity) (progressData : request_body)
  : world -> response * world :=
  serve (try_catch
    (match progressData with
     | None => mret (status_json 400 (error_object "保存するデータがありません。"))
     | Some data =>
         _ ← UPSERT_progress (id user) (stringify data);
         mret saved
     end)
    (λ error, mret (status_json 500 (error_object server_error_message)))).
End Handlers.

End ServerJs.

(** ** src/unnamed/part_001: the first router *)
Module RoutesV1.

Section Handlers.
Context `{Bcrypt} `{Jsonwebtoken}.

(** Lines 12-50. *)
Definition post_register (req : Registration.body) : world -> response * world :=
  serve (Registration.post_register Unserialized req).

(** Lines 53-73. *)
Definition post_login (req : credentials) : world -> response * world :=
  serve (try_catch
    (rows ← SELECT_users (login_username req);
     match rows with
     | [] => mret (status_json 400 (error_object "ユーザーが見つかりません。"))
     | user :: _ =>
         matched ← bcrypt_compare (login_password req) (u_password user);
         if (matched : bool) then
           mret (res_json (JObj {[ "accessToken" :=
                   JStr (jwt_sign (Identity (u_id user) (u_username user))) ]}))
         else
           mret (status_json 401 (error_object "パスワードが正しくありません。"))
     end)
    (λ error, mret (status_json 500 (error_object server_error_message)))).

(** Lines 76-89. *)
Definition get_progress (user : identity) : world -> response * world :=
  serve (try_catch
    (result ← SELECT_progress_data (id user);
     match result with
     | data :: _ => mret (res_json data)
     | [] => mret (res_json (to_json emptyProgress))
     end)
    (λ error, mret (status_json 500 (error_object server_error_message)))).

(** Lines 92-108. *)
Definition post_progress (user : identity) (progressData : request_body)
  : world -> response * world :=
  serve (try_catch
    (match progressData with
     | None => mret (status_json 400 (error_object "Сохраняемые данные отсутствуют."))
     | Some data =>
         _ ← UPSERT_progress (id user) (Unserialized data);
         mret ServerJs.saved
     end)
    (λ error, mret (status_json 500 (error_object server_error_message)))).
End Handlers.

End RoutesV1.

(** ** src/unnamed/part_000: the current router *)
Module RoutesV2.

(** A parsed [URL]: the parts the image proxy reads. *)
Record URL : Type := Url {
  protocol : string;
  hostname : string;
  origin : string;
  href : string                       (* urlObj.toString() *)
}.

(** What one [fetch] came to: the promise rejected, or a response with
    its status, its [content-type] header and what reading the body as
    text or as an [ArrayBuffer] gives. *)
Inductive upstream : Type :=
  | FetchRejected (message : option string)
  | FetchResponse (status : Z) (content_type : option string)
                  (text : outcome string) (arrayBuffer : outcome (list Z)).

(** [response.ok]: a status in the range 200-299. *)
Definition ok (status : Z) : bool := (200 <=? status) && (status <=? 299).

(** The platform under the image proxy: [new URL(raw)], which throws on
    what is not a URL, and [fetch], whose answer to the n-th call of a
    request depends on the address and the headers sent. *)
Class Platform : Type := {
  URL_parse : string -> option URL;
  fetch : nat -> string -> list (string * string) -> upstream
}.

(** [res.setHeader(name, value)]: a header that is already set is
    replaced. *)
Fixpoint setHeader (name value : string) (hs : list (string * string))
  : list (string * string) :=
  match hs with
  | [] => [(name, value)]
  | (n, v) :: rest =>
      if String.eqb n name then (name, value) :: rest
      else (n, v) :: setHeader name value rest
  end.

(** [res.getHeader(name)] *)
Fixpoint getHeader (name : string) (hs : list (string * string)) : option string :=
  match hs with
  | [] => None
  | (n, v) :: rest => if String.eqb n name then Some v else getHeader name rest
  end.

(** A fetch that did not deliver the picture: it rejected, the response
    was not [ok], or reading its body rejected. *)
Definition fetch_failed (u : upstream) : bool :=
  match u with
  | FetchRejected _ => true
  | FetchResponse st _ _ body => negb (ok st) || (if body is Rejected _ then true else false)
  end.

(** [s.endsWith(suffix)] *)
Definition endsWith (s suffix : string) : bool :=
  let n := String.length s in
  let k := String.length suffix in
  (k <=? n)%nat && String.eqb (String.substring (n - k)%nat k s) suffix.

Definition ALLOWED_IMAGE_HOSTS : list string :=
  [ "pub-8e1f6da67eed4033b14228e6b9e1393c.r2.dev"; "googleusercontent.com" ].

Definition isAllowedHost (hostname : string) : bool :=
  existsb (λ allowedHost,
             String.eqb hostname allowedHost || endsWith hostname ("." +:+ allowedHost))
          ALLOWED_IMAGE_HOSTS.

Definition COMMON : list (string * string) :=
  [ ("User-Agent", "Mozilla/5.0 (Windows NT 10.0; Win64; x64) AppleWebKit/537.36 (KHTML, like Gecko) Chrome/118.0.0.0 Safari/537.36");
    ("Accept", "image/avif,image/webp,image/apng,image/*,*/*;q=0.8");
    ("Accept-Language", "ja,en;q=0.9");
    ("Sec-Fetch-Site", "cross-site");
    ("Sec-Fetch-Mode", "no-cors");
    ("Sec-Fetch-Dest", "image");
    ("Connection", "keep-alive") ].

Definition trials (urlObj : URL) : list (list (string * string)) :=
  [ (COMMON ++ [ ("Referer", "https://sites.google.com/");
                 ("Origin", "https://sites.google.com") ])%list;
    COMMON;
    (COMMON ++ [ ("Referer", origin urlObj +:+ "/"); ("Origin", origin urlObj) ])%list ].

(** The placeholder picture of lines 294-314.  The template is written
    here with apostrophes where the source has double quotes;
    [double_quoted] puts the double quotes back. *)
Definition double_quoted (s : string) : string :=
  String.string_of_list_ascii
    (map (λ c, if Ascii.eqb c "'"%char then ascii_of_nat 34 else c) (String.list_ascii_of_string s)).

Definition placeholder_svg (lastStatus : Z) : string :=
  double_quoted "<?xml version='1.0' encoding='UTF-8'?>
<svg xmlns='http://www.w3.org/2000/svg' width='800' height='450' viewBox='0 0 800 450'>
  <defs>
    <linearGradient id='g' x1='0' y1='0' x2='1' y2='1'>
      <stop offset='0%' stop-color='#eef2ff'/>
      <stop offset='100%' stop-color='#e0e7ff'/>
    </linearGradient>
  </defs>
  <rect width='100%' height='100%' fill='url(#g)'/>
  <g fill='#6366f1'>
    <circle cx='80' cy='80' r='28' fill='#a5b4fc'/>
    <rect x='130' y='60' width='240' height='16' rx='8'/>
    <rect x='130' y='86' width='180' height='12' rx='6' fill='#818cf8'/>
  </g>
  <g transform='translate(60,180)' fill='#334155'>
    <rect x='0' y='0' width='680' height='14' rx='7' fill='#c7d2fe'/>
    <rect x='0' y='26' width='620' height='14' rx='7' fill='#c7d2fe'/>
    <rect x='0' y='52' width='540' height='14' rx='7' fill='#c7d2fe'/>
  </g>
  <text x='50%' y='88%' dominant-baseline='middle' text-anchor='middle' fill='#475569' font-size='14'>画像を取得できませんでした (status: "
    +:+ pretty lastStatus +:+
    double_quoted "). オリジナルへのアクセスが制限されている可能性があります。</text>
</svg>".


Definition cache_for (seconds : string) : string := "public, max-age=" +:+ seconds.

(** [{ settings: { theme: 'light', currentWeekIndex: 0 }, lectures: {} }],
    the document [GET /progress] creates (line 146). *)
Definition empty : structured :=
  Obj (<["settings" := JObj (<["theme" := JStr "light"]> {[ "currentWeekIndex" := JNum 0 ]})]>
         {[ "lectures" := JObj ∅ ]}).

Definition invalid_credentials : response :=
  status_send 401 "ユーザー名またはパスワードが正しくありません。".

Definition progress_load_failed : response :=
  status_json 500 (JObj (<["error" := JStr "進捗データの取得に失敗しました。"]>
                           {[ "code" := JStr "PROGRESS_LOAD_FAILED" ]})).

Section Handlers.
Context `{Bcrypt} `{Jsonwebtoken} `{Process} `{Platform}.

(** Lines 70-102. *)
Definition post_register (req : Registration.body) : world -> response * world :=
  serve (Registration.post_register Unserialized req).

(** Lines 104-127.  [res.redirect('/app')] answers 302 with a [Location]
    header; its body, a notice whose form follows the request's [Accept]
    header, is left out. *)
Definition post_login (req : credentials) : world -> response * world :=
  serve (try_catch
    (rows ← SELECT_users (login_username req);
     match rows with
     | [] => mret invalid_credentials
     | user :: _ =>
         matched ← bcrypt_compare (login_password req) (u_password user);
         if (matched : bool) then
           let accessToken := jwt_sign (Identity (u_id user) (u_username user)) in
           mret (Response 302 [("Location", "/app")]
                          [Cookie "accessToken" accessToken true production
                                  (7 * 24 * 60 * 60 * 1000)]
                          NoBody)
         else
           mret invalid_credentials
     end)
    (λ error, mret (status_send 500 server_error_message))).

(** Lines 138-154. *)
Definition get_progress (user : identity) : world -> response * world :=
  serve (try_catch
    (let uid := id user in
     result ← SELECT_progress_data uid;
     match result with
     | data :: _ => mret (res_json data)
     | [] =>
         _ ← INSERT_progress uid (Unserialized empty);
         mret (Response 200 [("X-Notice", "DATA_INITIALIZED")] [] (Json (to_json empty)))
     end)
    (λ error, mret progress_load_failed)).

(** Lines 156-171. *)
Definition post_progress (user : identity) (progressData : request_body)
  : world -> response * world :=
  serve (try_catch
    (match progressData with
     | None => mret (status_json 400 (error_object "保存するデータがありません。"))
     | Some data =>
         _ ← UPSERT_progress (id user) (Unserialized data);
         mret ServerJs.saved
     end)
    (λ error, mret (status_json 500 (error_object server_error_message)))).

(** The fallback of lines 292-317, on the headers set so far. *)
Definition placeholder (lastStatus : Z) (hs : list (string * string)) : response :=
  Response 200
    (setHeader "Cache-Control" (cache_for "600")
       (setHeader "Content-Type" "image/svg+xml; charset=utf-8"
          (setHeader "X-Upstream-Status" (pretty lastStatus) hs)))
    [] (Text (placeholder_svg lastStatus)).

(** The loop of lines 271-291 from its [n]-th fetch on, with the values of
    [lastStatus] and [lastBody] and the response headers set so far; when
    the trials run out it falls through to the placeholder. *)
Fixpoint attempt (n : nat) (url : string) (remaining : list (list (string * string)))
    (lastStatus : Z) (lastBody : string) (hs : list (string * string)) : response :=
  match remaining with
  | [] => placeholder lastStatus hs
  | t :: rest =>
      match fetch n url t with
      | FetchResponse st content_type body_text body_bytes =>
          if ok st then
            let contentType :=
              if truthy content_type then text content_type else "application/octet-stream" in
            let hs := setHeader "Cache-Control" (cache_for "86400")
                        (setHeader "Content-Type" contentType hs) in
            match body_bytes with
            | Resolved ab => Response 200 hs [] (Binary ab)
            | Rejected e =>
                attempt (S n) url rest 0
                  (if String.eqb (message e) "" then "fetch error" else message e) hs
            end
          else
            attempt (S n) url rest st
              (match body_text with Resolved s => s | Rejected _ => "" end) hs
      | FetchRejected msg =>
          attempt (S n) url rest 0 (if truthy msg then text msg else "fetch error") hs
      end
  end.

(** Lines 217-321, behind [authenticateToken].  [url] is [req.query.url].
    Nothing in the [try] block throws past the inner handlers, so the outer
    [catch] (500) has no case here. *)
Definition get_image (url : option string) : response :=
  let raw := text url in
  if String.eqb raw "" then status_send 400 "url パラメータが必要です"
  else
    match URL_parse raw with
    | None => status_send 400 "無効なURL"
    | Some urlObj =>
        if negb (String.eqb (protocol urlObj) "https:") || negb (isAllowedHost (hostname urlObj))
        then status_send 400 ("許可されていないホストです: " +:+ hostname urlObj)
        else attempt 0 (href urlObj) (trials urlObj) 0 "" []
    end.
End Handlers.

End RoutesV2.

(** ** Requests in sequence *)

(** The storage failures a request meets, one entry per round trip:
    [Some e] makes that round trip fail with [e]; past the end of the plan
    nothing fails. *)
Definition faults (plan : list (option jserror)) : list event :=
  map (from_option Fault Quiet) plan.

(** The server as a request finds it when no other session is at work. *)
Definition facing (plan : list (option jserror)) (w : world) : world :=
  World (committed w) (now w) (faults plan).

Inductive variant : Type := server_js | routes_v1 | routes_v2.

(** The requests that reach a handler that talks to the store (protected
    ones with the [req.user] their guard attached). *)
Inductive request : Type :=
  | POST_register (v : variant) (req : Registration.body)
  | POST_login (v : variant) (req : credentials)
  | GET_progress (v : variant) (user : identity)
  | POST_progress (v : variant) (user : identity) (data : request_body).

(** A device id has a row in [device_registrations]. *)
Definition registered (device_id : string) (t : tables) : Prop :=
  Exists (λ r, d_device_id r = device_id) (device_registrations t).

(** How each file hands a JSONB parameter to [pg]. *)
Definition bind_data (v : variant) : structured -> data_param :=
  match v with
  | server_js => ServerJs.stringify
  | routes_v1 | routes_v2 => Unserialized
  end.

Section Server.
Context `{Bcrypt} `{Jsonwebtoken} `{Process}.

Definition handle (r : request) : world -> response * world :=
  match r with
  | POST_register server_js req => ServerJs.post_register req
  | POST_register routes_v1 req => RoutesV1.post_register req
  | POST_register routes_v2 req => RoutesV2.post_register req
  | POST_login server_js req => ServerJs.post_login req
  | POST_login routes_v1 req => RoutesV1.post_login req
  | POST_login routes_v2 req => RoutesV2.post_login req
  | GET_progress server_js user => ServerJs.get_progress user
  | GET_progress routes_v1 user => RoutesV1.get_progress user
  | GET_progress routes_v2 user => RoutesV2.get_progress user
  | POST_progress server_js user data => ServerJs.post_progress user data
  | POST_progress routes_v1 user data => RoutesV1.post_progress user data
  | POST_progress routes_v2 user data => RoutesV2.post_progress user data
  end.

(** One request served, under its own plan of failures. *)
Definition after (w : world) (r : request * list (option jserror)) : world :=
  (handle r.1 (facing r.2 w)).2.

(** A history of requests, served one after the other. *)
Definition run (history : list (request * list (option jserror))) (w : world) : world :=
  foldl after w history.
End Server.

(** What each file answers to a login whose username matches no row, and
    when its handler catches an error. *)
Definition user_not_found (v : variant) : response :=
  match v with
  | server_js | routes_v1 => status_json 400 (error_object "ユーザーが見つかりません。")
  | routes_v2 => RoutesV2.invalid_credentials
  end.

Definition wrong_password (v : variant) : response :=
  match v with
  | server_js | routes_v1 => status_json 401 (error_object "パスワードが正しくありません。")
  | routes_v2 => RoutesV2.invalid_credentials
  end.


(** ** A concrete deployment, for the examples *)
Module Fixtures.

Definition bcrypt : Bcrypt := {|
  bcrypt_digest p := "$2b$10$" +:+ p;
  bcrypt_matches p h := String.eqb h ("$2b$10$" +:+ p)
|}.

Definition jsonwebtoken : Jsonwebtoken := {|
  jwt_sign u := "jwt:" +:+ username u;
  jwt_verify t := if String.eqb t "jwt:alice" then Some (Identity 1 "alice") else None
|}.

Definition process : Process := {| production := true |}.

Definition picture : string := "https://lh3.googleusercontent.com/a.png".

(** An upstream that refuses the first fetch, drops the second and breaks
    off the body of the third. *)
Definition platform : RoutesV2.Platform := {|
  RoutesV2.URL_parse raw :=
    if String.eqb raw picture
    then Some (RoutesV2.Url "https:" "lh3.googleusercontent.com"
                            "https://lh3.googleusercontent.com" raw)
    else None;
  RoutesV2.fetch n url hs :=
    match n with
    | 0%nat => RoutesV2.FetchResponse 403 None (Resolved "denied") (Resolved [])
    | 1%nat => RoutesV2.FetchRejected (Some "socket hang up")
    | _ => RoutesV2.FetchResponse 200 (Some "image/png") (Resolved "")
                                  (Rejected (JsError None "aborted"))
    end
|}.

#[local] Existing Instances bcrypt jsonwebtoken process platform.

(** An empty database at time 1000. *)
Definition fresh : world := World (Database (Tables [] [] ∅) 0 0) 1000 [].

Definition alice : Registration.body :=
  Registration.Body (Some "alice") (Some "correct horse") (Some "device-1").

(** A second account from Alice's device. *)
Definition mallory : Registration.body :=
  Registration.Body (Some "mallory") (Some "hunter2") (Some "device-1").

(** What [jwt.verify] makes of Alice's token. *)
Definition alice_user : identity := Identity 1 "alice".

(** The server once Alice has registered through the current router. *)
Definition with_alice : world := (RoutesV2.post_register alice fresh).2.

(** A user row without a progress row, as accounts created before the
    progress table was rebuilt have it. *)
Definition without_progress : world :=
  World (Database (Tables [UsersRow 1 "alice" "$2b$10$correct horse" 900] [] ∅) 1 0) 1000 [].

(** Mallory's whole registration, as one step of another session. *)
Definition mallory_registers (d : database) : database :=
  committed (RoutesV2.post_register mallory (World d 1000 [])).2.

(** Alice's request is connected, has begun its transaction and has looked
    the device up; Mallory's commits before it inserts anything. *)
Definition overtaken : world :=
  World (committed fresh) 1000 [Quiet; Quiet; Quiet; Meanwhile mallory_registers].

End Fixtures.

(** ** Reasoning about promises

    [wp m Q s]: run from [s], the promise [m] settles in an outcome and a
    session that satisfy [Q]. *)
Definition wp {A} (m : M A) (Q : outcome A -> session -> Prop) (s : session) : Prop :=
  Q (m s).1 (m s).2.

(** A registration left the rows alone, or it answered 201 and added one
    row to each table, the device's among them. *)
Definition settled (t : tables) (req : Registration.body) (res : response) (t' : tables)
  : Prop :=
  (status res ≠ 201 ∧ t' = t)
  ∨ (status res = 201
     ∧ ∃ dev urow drow uid prow,
         Registration.deviceId req = Some dev
         ∧ dev ≠ ""
         ∧ ¬ registered dev t
         ∧ d_device_id drow = dev
         ∧ t' = Tables (users t ++ [urow]) (device_registrations t ++ [drow])
                       (<[uid := prow]> (progress t))).

(** ** POST /log: the intake of client logs

    [src/unnamed/part_000] lines 13-60.  The limiter's table [logRate] is
    the handler's own state; the logger ([../logger]) is not in the
    repository and is a parameter: what [fromRequest] returns, and whether
    a call to one of its methods throws.  The calls the handler makes are
    part of its result. *)
Module ClientLog.

(** An entry of [logRate]: [{ count, reset }]. *)
Record entry : Type := Entry {
  count : Z;
  reset : Z
}.

Definition LOG_LIMIT_PER_MIN : Z := 120.

(** The destructured [req.body]; a field that is absent is [None]. *)
Record fields : Type := Fields {
  level : option json;
  message : option json;
  args : option json;
  page : option json;
  ts : option json;
  ua : option json
}.

Definition no_fields : fields := Fields None None None None None None.

Record request : Type := Request {
  ip : option string;                 (* req.ip *)
  remoteAddress : option string;      (* req.connection?.remoteAddress *)
  body : option fields;               (* req.body *)
  accessToken : option string         (* req.cookies?.accessToken *)
}.

(** [serverLogger.fromRequest(req)] *)
Record context : Type := Context {
  ctx_ua : option json;
  ctx_ip : option json
}.

(** The second argument of a logger call. *)
Inductive extra : Type :=
  | ClientExtra (page : json) (ua : option json) (ip : option json) (user : option identity)
                (args : option (list string)) (clientTs : option json)
  | IntakeFailure (err : string).      (* { src: 'api.log', err } *)

(** [serverLogger[method](text, extra)] *)
Record log_call : Type := LogCall {
  method : string;
  text_logged : string;
  detail : extra
}.

(** The logger, and the two conversions of JavaScript the handler applies
    to values of any type. *)
Class ServerLogger : Type := {
  fromRequest : request -> outcome context;
  logger_throws : log_call -> option jserror;
  js_String : json -> string;          (* String(value) *)
  JSON_stringify : json -> string      (* JSON.stringify(value) *)
}.

(** [!!value] *)
Definition js_truthy (j : json) : bool :=
  match j with
  | JNull => false
  | JBool b => b
  | JNum n => negb (n =? 0)
  | JStr s => negb (String.eqb s "")
  | JArr _ | JObj _ => true
  end.

Definition allowed : list string := ["debug"; "info"; "warn"; "error"].

(** [req.ip || req.connection?.remoteAddress || 'unknown'] *)
Definition client_ip (req : request) : string :=
  if truthy (ip req) then text (ip req)
  else if truthy (remoteAddress req) then text (remoteAddress req)
  else "unknown".

(** Lines 22-25: the entry of the address, counted up, in a window that is
    opened anew when the old one is over. *)
Definition counted (now : Z) (e : option entry) : entry :=
  let entry := default (Entry 0 (now + 60000)) e in
  let entry := if reset entry <? now then Entry 0 (now + 60000) else entry in
  Entry (count entry + 1) (reset entry).

Definition ok_true : json := JObj {[ "ok" := JBool true ]}.

(** What Express answers when a handler throws. *)
Definition express_error : response := Response 500 [] [] NoBody.

Section Handler.
Context `{Jsonwebtoken} `{ServerLogger}.

(** Line 32: [allowed.includes(level) ? level : 'info'], with the default
    of line 30. *)
Definition lvl (level : option json) : string :=
  match level with
  | None => "info"
  | Some (JStr l) => if bool_decide (l ∈ allowed) then l else "info"
  | Some _ => "info"
  end.

(** Lines 35-42: the user of the cookie's token, if it verifies. *)
Definition user_of (token : option string) : option identity :=
  if truthy token then
    match jwt_verify (text token) with
    | Some payload => Some (Identity (id payload) (username payload))
    | None => None
    end
  else None.

(** Line 51. *)
Definition converted_args (args : option json) : option (list string) :=
  match default (JArr []) args with
  | JArr items =>
      Some (take 10 (map (λ a, if a is JStr s then s else JSON_stringify a) items))
  | _ => None
  end.

(** Line 54: the text of the entry. *)
Definition entry_text (level message : option json) : string :=
  "client:" +:+ lvl level +:+ " "
  +:+ match default (JStr "") message with
      | JStr m => m
      | other => js_String other
      end.

(** Lines 56-59: the [catch]. *)
Definition intake_failed (e : jserror) (calls : list log_call)
  : response * list log_call :=
  let warning :=
    LogCall "warn" "failed to ingest client log"
            (IntakeFailure (let 'JsError _ m := e in
                            if String.eqb m "" then "Error" else m)) in
  match logger_throws warning with
  | None => (res_json ok_true, (calls ++ [warning])%list)
  | Some _ => (express_error, (calls ++ [warning])%list)
  end.

(** Lines 18-60.  [now] is [Date.now()]. *)
Definition post_log (now : Z) (req : request) (logRate : gmap string entry)
  : response * gmap string entry * list log_call :=
  let ip := client_ip req in
  let entry := counted now (logRate !! ip) in
  let logRate := <[ip := entry]> logRate in
  if LOG_LIMIT_PER_MIN <? count entry then
    (status_json 429 ok_true, logRate, [])
  else
    let b := default no_fields (body req) in
    let user := user_of (accessToken req) in
    match fromRequest req with
    | Rejected e => let '(res, calls) := intake_failed e [] in (res, logRate, calls)
    | Resolved ctx =>
        let call :=
          LogCall (lvl (level b)) (entry_text (level b) (message b))
            (ClientExtra (default (JStr "") (page b))
               (match ua b with
                | Some u => if js_truthy u then Some u else ctx_ua ctx
                | None => ctx_ua ctx
                end)
               (ctx_ip ctx) user (converted_args (args b)) (ts b)) in
        match logger_throws call with
        | None => (res_json ok_true, logRate, [call])
        | Some e => let '(res, calls) := intake_failed e [call] in (res, logRate, calls)
        end
    end.
End Handler.

(** Requests to [/log], one after the other, each at its own time: the
    answers, and the calls made to the logger. *)
Section Stream.
Context `{Jsonwebtoken} `{ServerLogger}.

Fixpoint serve_logs (reqs : list (Z * request)) (logRate : gmap string entry)
  : list (response * list log_call) * gmap string entry :=
  match reqs with
  | [] => ([], logRate)
  | (now, req) :: rest =>
      let '(res, logRate', calls) := post_log now req logRate in
      let '(answers, final) := serve_logs rest logRate' in
      ((res, calls) :: answers, final)
  end.
End Stream.

End ClientLog.

(** The limiter's state for one address while its window is open: the
    number of its requests so far. *)
Definition within (a : string) (t0 : Z) (c : Z) (logRate : gmap string ClientLog.entry) : Prop :=
  (c = 0 ∧ logRate !! a = None)
  ∨ ∃ r, logRate !! a = Some (ClientLog.Entry c r) ∧ t0 + 60000 <= r.

(** No window of the table ends later than a minute after the latest
    request. *)
Definition windows_by (t : Z) (logRate : gmap string ClientLog.entry) : Prop :=
  ∀ a e, logRate !! a = Some e -> ClientLog.reset e <= t + 60000.

(** ** GET /materials: the proxy to the CMS

    [src/unnamed/part_000] lines 174-214.  The environment variable
    [CMS_LINK], [parseInt], [fetch] and [String.prototype.slice] are
    parameters; the test of the subject, [encodeURIComponent] and
    [includes] are written out on the bytes of the text. *)
Module Materials.

(** A value of [req.query] as the query parser of Express builds it. *)
Inductive query_value : Type :=
  | QString (s : string)
  | QArray (items : list query_value)
  | QObject.

(** [value.toString()] *)
Fixpoint toString (v : query_value) : string :=
  match v with
  | QString s => s
  | QArray items => String.concat "," (map toString items)
  | QObject => "[object Object]"
  end.

(** [(value || '').toString()] *)
Definition query_text (v : option query_value) : string :=
  match v with
  | None => ""
  | Some (QString "") => ""
  | Some v => toString v
  end.

Definition between (lo hi : nat) (c : ascii) : bool :=
  (lo <=? nat_of_ascii c)%nat && (nat_of_ascii c <=? hi)%nat.

(** [/^[A-Z0-9]{10}$/.test(subject)] *)
Definition subject_matches (subject : string) : bool :=
  (String.length subject =? 10)%nat
  && forallb (λ c, between 65 90 c || between 48 57 c) (String.list_ascii_of_string subject).

(** [encodeURIComponent] on the UTF-8 text: letters, digits and
    [- _ . ! ~ * ' ( )] stay, every other byte becomes [%XX]. *)
Definition unreserved (c : ascii) : bool :=
  between 65 90 c || between 97 122 c || between 48 57 c
  || bool_decide (c ∈ String.list_ascii_of_string "-_.!~*'()").

Definition hex_digit (n : nat) : ascii :=
  if (n <? 10)%nat then ascii_of_nat (48 + n) else ascii_of_nat (55 + n).

Fixpoint encodeURIComponent (s : string) : string :=
  match s with
  | EmptyString => EmptyString
  | String c rest =>
      if unreserved c then String c (encodeURIComponent rest)
      else String "%" (String (hex_digit (nat_of_ascii c / 16))
                         (String (hex_digit (nat_of_ascii c mod 16))
                            (encodeURIComponent rest)))
  end.

(** [s.includes(part)] *)
Fixpoint includes (s part : string) : bool :=
  String.prefix part s
  || match s with
     | EmptyString => false
     | String _ rest => includes rest part
     end.

(** What the [fetch] of the CMS came to: the promise rejected, or a
    response with its status, its [content-type] header and what reading
    its body as text or as JSON gives. *)
Inductive reply : Type :=
  | Unreachable (e : jserror)
  | Reply (status : Z) (content_type : option string)
          (text : outcome string) (json : outcome json).

Class Cms : Type := {
  CMS_LINK : option string;                     (* process.env.CMS_LINK *)
  parseInt : string -> option Z;                (* parseInt(s, 10); None: NaN or infinite *)
  fetch : string -> list (string * string) -> reply;
  slice_300 : string -> string                  (* s.slice(0, 300) *)
}.

Definition invalid_subject : response :=
  status_json 400 (error_object "無効なパラメータ: subject").

Definition invalid_chapter : response :=
  status_json 400 (error_object "無効なパラメータ: chapter").

Definition not_configured : response :=
  status_json 500 (error_object "CMS_LINK が未設定です。").

(** Line 212. *)
Definition proxy_error (err : jserror) : response :=
  status_json 500
    (JObj (<["error" := JStr "サーバープロキシエラー"]>
             {[ "details" := JStr (message err) ]})).

Section Handler.
Context `{Cms}.

(** [await upstream.text().catch(() => '')], cut to 300. *)
Definition details (text : outcome string) : string :=
  slice_300 (match text with Resolved t => t | Rejected _ => "" end).

(** Lines 197-210: what is made of the answer of the CMS. *)
Definition relay (upstream : reply) : response :=
  match upstream with
  | Unreachable err => proxy_error err
  | Reply st content_type text json =>
      if negb (RoutesV2.ok st) then
        status_json 502
          (JObj (<["error" := JStr "上流の取得に失敗しました。"]>
                   (<["status" := JNum st]> {[ "details" := JStr (details text) ]})))
      else if negb (includes (default "" content_type) "application/json") then
        status_json 502
          (JObj (<["error" := JStr "上流の応答がJSONではありません。"]>
                   {[ "details" := JStr (details text) ]}))
      else
        match json with
        | Resolved data => res_json data
        | Rejected err => proxy_error err
        end
  end.

(** The address of line 193. *)
Definition address (baseUrl subject : string) (chapter : Z) : string :=
  baseUrl +:+ "?subject=" +:+ encodeURIComponent subject
  +:+ "&chapter=" +:+ encodeURIComponent (pretty chapter).

(** Lines 174-214, behind the guard. *)
Definition get_materials (subject chapter : option query_value) : response :=
  let subject := query_text subject in
  let chapterRaw := query_text chapter in
  if negb (subject_matches subject) then invalid_subject
  else
    match parseInt chapterRaw with
    | None => invalid_chapter
    | Some chapter =>
        if (chapter <? 1) || (50 <? chapter) then invalid_chapter
        else if negb (truthy CMS_LINK) then not_configured
        else relay (fetch (address (text CMS_LINK) subject chapter)
                          [("Accept", "application/json")])
    end.
End Handler.

End Materials.

(** ** The preparation of the schema at startup

    [initializeDatabase] of [src/server.js], lines 163-215.  Here the
    tables themselves come and go, so the state is the catalog: which of
    the three tables exist, and with what rows.  Each statement is its own
    transaction; a round trip to the store is met by the next entry of
    [ahead]: nothing, or a failure. *)
Module Startup.

(** The table [progress] is either the one of lines 198-203, or an older
    one: [data_type] is then what [information_schema.columns] tells for
    its column [data], if it has one, and the rows are text. *)
Inductive progress_table : Type :=
  | Jsonb (rows : gmap Z Pg.progress_row)
  | Legacy (data_type : option string) (rows : list (Z * string)).

Record catalog : Type := Catalog {
  users : option (list Pg.users_row);
  device_registrations : option (list Pg.device_registrations_row);
  progress : option progress_table
}.

Record server : Type := Server {
  tables : catalog;
  ahead : list (option jserror)
}.

Definition undefined_table : string := "42P01".
Definition duplicate_table : string := "42P07".

Definition M (A : Type) : Type := server -> outcome A * server.

#[export] Instance M_ret : MRet M := λ A a s, (Resolved a, s).

#[export] Instance M_bind : MBind M := λ A B f m s,
  match m s with
  | (Resolved a, s') => f a s'
  | (Rejected e, s') => (Rejected e, s')
  end.

Definition try_catch {A} (m : M A) (h : jserror -> M A) : M A := λ s,
  match m s with
  | (Resolved a, s') => (Resolved a, s')
  | (Rejected e, s') => h e s'
  end.

Definition try_finally {A} (m : M A) (f : M unit) : M A := λ s,
  match m s with
  | (r, s') =>
      match f s' with
      | (Resolved _, s'') => (r, s'')
      | (Rejected e, s'') => (Rejected e, s'')
      end
  end.

(** One round trip: the statement runs unless a failure is met. *)
Definition call {A} (stmt : catalog -> outcome A * catalog) : M A := λ s,
  match ahead s with
  | Some e :: rest => (Rejected e, Server (tables s) rest)
  | None :: rest => let '(r, c) := stmt (tables s) in (r, Server c rest)
  | [] => let '(r, c) := stmt (tables s) in (r, Server c [])
  end.

(** [pool.connect()] *)
Definition connect (c : catalog) : outcome unit * catalog := (Resolved (), c).

(** [CREATE TABLE IF NOT EXISTS users (...)] *)
Definition CREATE_users (c : catalog) : outcome unit * catalog :=
  match users c with
  | Some _ => (Resolved (), c)
  | None => (Resolved (), Catalog (Some []) (device_registrations c) (progress c))
  end.

(** [CREATE TABLE IF NOT EXISTS device_registrations (... FOREIGN KEY
    (user_id) REFERENCES users(id) ...)] *)
Definition CREATE_device_registrations (c : catalog) : outcome unit * catalog :=
  match device_registrations c, users c with
  | Some _, _ => (Resolved (), c)
  | None, Some _ => (Resolved (), Catalog (users c) (Some []) (progress c))
  | None, None =>
      (Rejected (Pg.sql_error undefined_table "relation users does not exist"), c)
  end.

(** The rows of [information_schema.columns] for the column [data] of a
    table [progress]. *)
Definition data_types (progress : option progress_table) : list string :=
  match progress with
  | Some (Jsonb _) => ["jsonb"]
  | Some (Legacy (Some data_type) _) => [data_type]
  | Some (Legacy None _) | None => []
  end.

(** [SELECT data_type FROM information_schema.columns WHERE
    table_name='progress' AND column_name='data'] *)
Definition SELECT_data_type (c : catalog) : outcome (list string) * catalog :=
  (Resolved (data_types (progress c)), c).

(** [DROP TABLE IF EXISTS progress] *)
Definition DROP_progress (c : catalog) : outcome unit * catalog :=
  (Resolved (), Catalog (users c) (device_registrations c) None).

(** [CREATE TABLE progress (... data JSONB ... REFERENCES users (id) ...)] *)
Definition CREATE_progress (c : catalog) : outcome unit * catalog :=
  match progress c, users c with
  | Some _, _ =>
      (Rejected (Pg.sql_error duplicate_table "relation progress already exists"), c)
  | None, None =>
      (Rejected (Pg.sql_error undefined_table "relation users does not exist"), c)
  | None, Some _ =>
      (Resolved (), Catalog (users c) (device_registrations c) (Some (Jsonb ∅)))
  end.

(** [s.toLowerCase()], on the letters A-Z. *)
Definition toLowerCase (s : string) : string :=
  String.string_of_list_ascii
    (map (λ c, if Materials.between 65 90 c then ascii_of_nat (nat_of_ascii c + 32) else c)
         (String.list_ascii_of_string s)).

(** Line 194: [res.rowCount === 0 ||
    res.rows[0].data_type.toLowerCase().includes('text')] *)
Definition outdated (res : list string) : bool :=
  match res with
  | [] => true
  | data_type :: _ => Materials.includes (toLowerCase data_type) "text"
  end.

(** [client.release()] *)
Definition release : M unit := mret ().

Definition initializeDatabase : M unit :=
  _ ← call connect;
  try_finally
    (try_catch
       (_ ← call CREATE_users;
        _ ← call CREATE_device_registrations;
        res ← call SELECT_data_type;
        if outdated res then
          _ ← call DROP_progress;
          call CREATE_progress
        else mret ())
       (λ error, mret ()))
    release.

(** The catalog [initializeDatabase] leaves. *)
Definition prepared (plan : list (option jserror)) (c : catalog) : catalog :=
  tables (initializeDatabase (Server c plan)).2.

End Startup.

(** From a catalog with [P], the computation leaves one with [I], and one
    with [Q a] when it resolves to [a]. *)
Definition triple {A} (P : Startup.catalog -> Prop) (m : Startup.M A)
    (I : Startup.catalog -> Prop) (Q : A -> Startup.catalog -> Prop) : Prop :=
  ∀ s, P (Startup.tables s) ->
    I (Startup.tables (m s).2)
    ∧ ∀ a, (m s).1 = Resolved a -> Q a (Startup.tables (m s).2).

(** A plan without failures. *)
Definition quiet (plan : list (option jserror)) : Prop := Forall (λ x, x = None) plan.

(** The catalog a run without failures leaves. *)
Definition ready (c : Startup.catalog) : Startup.catalog :=
  Startup.Catalog (Some (default [] (Startup.users c)))
    (Some (default [] (Startup.device_registrations c)))
    (if Startup.outdated (Startup.data_types (Startup.progress c))
     then Some (Startup.Jsonb ∅) else Startup.progress c).

(** ** The device id of a browser

    [getDeviceId] of [src/public/js/auth.js] (lines 6-13) and of
    [src/public/js/login.js] (lines 4-11): the same function twice.  The
    state is [localStorage] together with the number of identifiers
    [crypto.randomUUID] has drawn so far. *)
Module Browser.

Class Crypto : Type := {
  randomUUID : nat -> string        (* the n-th identifier drawn *)
}.

Record page : Type := Page {
  localStorage : gmap string string;
  drawn : nat
}.

Section DeviceId.
Context `{Crypto}.

Definition getDeviceId (p : page) : string * page :=
  let deviceId := localStorage p !! "deviceId" in
  if negb (truthy deviceId) then
    let deviceId := randomUUID (drawn p) in
    (deviceId, Page (<["deviceId" := deviceId]> (localStorage p)) (S (drawn p)))
  else (text deviceId, p).
End DeviceId.

End Browser.

(** ** More deployments

    Requests, libraries and catalogs to run the handlers on, besides those
    of [Fixtures]. *)
Module Examples.



Definition week : structured := Obj {[ "week" := JNum 3 ]}.

(** An upstream that refuses the first fetch and delivers at the second. *)
Definition mirror : RoutesV2.Platform := {|
  RoutesV2.URL_parse := @RoutesV2.URL_parse Fixtures.platform;
  RoutesV2.fetch n url hs :=
    match n with
    | 0%nat => RoutesV2.FetchResponse 403 None (Resolved "denied") (Resolved [])
    | _ => RoutesV2.FetchResponse 200 (Some "image/png") (Resolved "")
                                  (Resolved [137; 80; 78; 71])
    end
|}.

(** A logger that fails on every entry of level [error] and accepts the
    warning about it. *)
Definition logger : ClientLog.ServerLogger := {|
  ClientLog.fromRequest req :=
    Resolved (ClientLog.Context (Some (JStr "Mozilla/5.0"))
                                (Some (JStr (ClientLog.client_ip req))));
  ClientLog.logger_throws call :=
    match ClientLog.detail call with
    | ClientLog.IntakeFailure _ => None
    | ClientLog.ClientExtra _ _ _ _ _ _ =>
        if String.eqb (ClientLog.method call) "error"
        then Some (JsError None "disk full") else None
    end;
  ClientLog.js_String j := if j is JNull then "null" else "[object Object]";
  ClientLog.JSON_stringify j := if j is JNum n then pretty n else "null"
|}.

(** A page that reports an error with twelve arguments. *)
Definition visitor : ClientLog.request :=
  ClientLog.Request (Some "203.0.113.7") None
    (Some (ClientLog.Fields (Some (JStr "error")) (Some (JStr "boom"))
             (Some (JArr (JNum <$> seqZ 1 12))) (Some (JStr "/app")) None None))
    None.

(** The same, asking for a method that is not a level. *)
Definition prankster : ClientLog.request :=
  ClientLog.Request None (Some "198.51.100.9")
    (Some (ClientLog.Fields (Some (JStr "constructor")) (Some JNull)
             (Some (JArr (JNum <$> seqZ 1 12))) None None None))
    None.

(** 121 entries of one address within a second, and one of another
    address among them. *)
Definition burst : list (Z * ClientLog.request) :=
  (replicate 60 (1000, visitor) ++ (1200, prankster) :: replicate 61 (1500, visitor))%list.

(** 130 entries at once, and one a minute later. *)
Definition pause : list (Z * ClientLog.request) :=
  (replicate 130 (1000, visitor) ++ [(61001, visitor)])%list.

(** [parseInt] on what starts with digits. *)
Fixpoint leading_digits (s : string) (value : option Z) : option Z :=
  match s with
  | String c rest =>
      if Materials.between 48 57 c
      then leading_digits rest (Some (10 * default 0 value + Z.of_nat (nat_of_ascii c) - 48))
      else value
  | EmptyString => value
  end.

Definition lesson : string := "https://cms.example/exec?subject=MATH000001&chapter=3".

(** A CMS that has one lesson. *)
Definition cms : Materials.Cms := {|
  Materials.CMS_LINK := Some "https://cms.example/exec";
  Materials.parseInt s := leading_digits s None;
  Materials.fetch url hs :=
    if String.eqb url lesson
    then Materials.Reply 200 (Some "application/json; charset=utf-8")
           (Resolved "{}") (Resolved (JObj {[ "title" := JStr "Vectors" ]}))
    else Materials.Reply 404 (Some "text/html") (Resolved "Not Found")
           (Rejected (JsError None "Unexpected token N in JSON"));
  Materials.slice_300 := String.substring 0 300
|}.

Definition crypto : Browser.Crypto := {|
  Browser.randomUUID n := "3f0c9d1e-0000-4000-8000-" +:+ pretty n
|}.

(** A database from the time the documents were kept as text. *)
Definition legacy : Startup.catalog :=
  Startup.Catalog (Some [UsersRow 1 "alice" "$2b$10$correct horse" 900]) (Some [])
                  (Some (Startup.Legacy (Some "text") [(1, "U2FsdGVkX1")])).

(** The same with the table of today. *)
Definition current : Startup.catalog :=
  Startup.Catalog (Some [UsersRow 1 "alice" "$2b$10$correct horse" 900]) (Some [])
                  (Some (Startup.Jsonb {[ 1 := ProgressRow (JObj ∅) 900 ]})).

End Examples.

(** ** What the handlers keep true of the store

    The constraints of the schema, and the sequences ahead of the ids they
    have given out. *)
Definition consistent (d : database) : Prop :=
  NoDup (u_id <$> users (rows d))
  ∧ NoDup (u_username <$> users (rows d))
  ∧ NoDup (d_id <$> device_registrations (rows d))
  ∧ NoDup (d_device_id <$> device_registrations (rows d))
  ∧ Forall (λ r, u_id r ≤ users_id_seq d) (users (rows d))
  ∧ Forall (λ r, d_id r ≤ device_registrations_id_seq d) (device_registrations (rows d))
  ∧ Forall (λ r, Exists (λ u, u_id u = d_user_id r) (users (rows d)))
           (device_registrations (rows d))
  ∧ (∀ uid, is_Some (progress (rows d) !! uid) ->
            Exists (λ u, u_id u = uid) (users (rows d))).

(** The four answers of a registration that stores nothing. *)
Definition refusal (res : response) : Prop :=
  res = Registration.fields_required ∨ res = Registration.device_conflict
  ∨ res = Registration.username_conflict ∨ res = Registration.server_error.

Section Accounts.
Context `{Bcrypt}.

(** The database after the account of [req] has been created in [d], at
    transaction time [t]: one row in each table, under the next user id. *)
Definition with_account (req : Registration.body) (t : Z) (d : database) : database :=
  let uid := users_id_seq d + 1 in
  let did := device_registrations_id_seq d + 1 in
  Database
    (Tables
       (users (rows d)
        ++ [UsersRow uid (text (Registration.username req))
                     (bcrypt_digest (text (Registration.password req))) t])
       (device_registrations (rows d)
        ++ [DeviceRow did (text (Registration.deviceId req)) uid t])
       (<[uid := ProgressRow (to_json emptyProgress) t]> (progress (rows d))))
    uid did.

(** What the statements of the transaction check before they insert. *)
Definition admissible (req : Registration.body) (d : database) : Prop :=
  truthy (Registration.username req) = true
  ∧ truthy (Registration.password req) = true
  ∧ truthy (Registration.deviceId req) = true
  ∧ char_length (text (Registration.username req)) ≤ 50
  ∧ char_length (bcrypt_digest (text (Registration.password req))) ≤ 255
  ∧ char_length (text (Registration.deviceId req)) ≤ 255
  ∧ ¬ Exists (λ r, u_username r = text (Registration.username req)) (users (rows d))
  ∧ ¬ registered (text (Registration.deviceId req)) (rows d)
  ∧ ¬ Exists (λ r, u_id r = users_id_seq d + 1) (users (rows d))
  ∧ ¬ Exists (λ r, d_id r = device_registrations_id_seq d + 1) (device_registrations (rows d))
  ∧ progress (rows d) !! (users_id_seq d + 1) = None.
End Accounts.

(** The answer of the image proxy when a fetch delivered: lines 277-281. *)
Definition passed_through (content_type : option string) (ab : list Z) : response :=
  Response 200
    [("Content-Type",
      if truthy content_type then text content_type else "application/octet-stream");
     ("Cache-Control", RoutesV2.cache_for "86400")]
    [] (Binary ab).

(** [lastStatus] after a fetch that failed: the status of a response that
    was not [ok], and 0 when the fetch or the reading of the body threw. *)
Definition status_after (u : RoutesV2.upstream) : Z :=
  match u with
  | RoutesV2.FetchResponse st _ _ _ => if RoutesV2.ok st then 0 else st
  | RoutesV2.FetchRejected _ => 0
  end.

(** The headers the loop has set on the response so far: none, or the
    two of a fetch whose body then failed. *)
Definition loop_headers (hs : list (string * string)) : Prop :=
  hs = [] ∨ ∃ c, hs = [("Content-Type", c); ("Cache-Control", RoutesV2.cache_for "86400")].

(** * Proofs *)

(** ** Rules for [wp] *)

Lemma wp_unfold {A} (m : M A) Q s : Q (m s).1 (m s).2 -> wp m Q s.
Proof. done. Qed.

Lemma wp_ret {A} (a : A) Q s : Q (Resolved a) s -> wp (mret a) Q s.
Proof. done. Qed.

Lemma wp_throw {A} e (Q : outcome A -> session -> Prop) s :
  Q (Rejected e) s -> wp (throw e) Q s.
Proof. done. Qed.

Lemma wp_bind {A B} (m : M A) (f : A -> M B) Q s :
  wp m (λ r s', match r with
                | Resolved a => wp (f a) Q s'
                | Rejected e => Q (Rejected e) s'
                end) s ->
  wp (m ≫= f) Q s.
Proof.
  unfold wp, mbind, M_bind. destruct (m s) as [[a|e] s']; done.
Qed.

Lemma wp_try_catch {A} (m : M A) h Q s :
  wp m (λ r s', match r with
                | Resolved a => Q (Resolved a) s'
                | Rejected e => wp (h e) Q s'
                end) s ->
  wp (try_catch m h) Q s.
Proof.
  unfold wp, try_catch. destruct (m s) as [[a|e] s']; done.
Qed.

Lemma wp_try_finally {A} (m : M A) f Q s :
  wp m (λ r s', wp f (λ r' s'', match r' with
                                | Resolved _ => Q r s''
                                | Rejected e => Q (Rejected e) s''
                                end) s') s ->
  wp (try_finally m f) Q s.
Proof.
  unfold wp, try_finally. destruct (m s) as [r s']. simpl.
  destruct (f s') as [[a|e] s'']; done.
Qed.

Lemma wp_mono {A} (m : M A) (Q Q' : outcome A -> session -> Prop) s :
  (∀ r s', Q r s' -> Q' r s') -> wp m Q s -> wp m Q' s.
Proof. unfold wp. auto. Qed.

(** Under a plan of failures a round trip fails exactly when the plan says
    so at its head, and the rest of the plan is left for the next one. *)
Lemma arrive_faults plan d n t :
  arrive (Session (World d n (faults plan)) t)
  = (mjoin (head plan), Session (World d (n + 1) (faults (tail plan))) t).
Proof. destruct plan as [|[e|] plan]; reflexivity. Qed.

Lemma wp_call {A} (stmt : session -> outcome A * session) Q plan d n t :
  match mjoin (head plan) with
  | Some e => Q (Rejected e) (Session (World d (n + 1) (faults (tail plan))) t)
  | None => wp stmt Q (Session (World d (n + 1) (faults (tail plan))) t)
  end ->
  wp (call stmt) Q (Session (World d n (faults plan)) t).
Proof.
  unfold wp, call. rewrite arrive_faults. destruct (mjoin (head plan)); done.
Qed.

Lemma wp_call_quiet {A} (stmt : session -> outcome A * session) Q d n t :
  wp stmt Q (Session (World d (n + 1) []) t) ->
  wp (call stmt) Q (Session (World d n []) t).
Proof. done. Qed.

(** What [serve] returns, read off a [wp] of the handler. *)
Lemma serve_wp (handler : M response) (P : response -> world -> Prop) w :
  wp handler (λ r s, match r with
                     | Resolved res => P res (world_of s)
                     | Rejected _ => P no_response (world_of s)
                     end) (Session w None) ->
  P (serve handler w).1 (serve handler w).2.
Proof.
  unfold wp, serve. destruct (handler (Session w None)) as [[res|e] s]; done.
Qed.

(** Symbolic execution of a handler: one construct at a time, a case split
    at every round trip (does the plan make it fail?) and at every test. *)
#[local] Arguments jsonb_in : simpl never.

Ltac wp_norm :=
  unfold set_tx, set_db, db, put, view, current_timestamp, nextval_users,
    nextval_device_registrations; simpl.

Ltac wp_fault :=
  match goal with
  | |- match mjoin (head ?p) with _ => _ end => destruct (mjoin (head p))
  end.

Ltac wp_if :=
  match goal with
  | |- wp _ _ _ => fail 1
  | |- context [if ?c then _ else _] => destruct c eqn:?; simpl
  | |- context [match jsonb_in ?p with _ => _ end] => destruct (jsonb_in p) eqn:?; simpl
  end.

Ltac wp_step :=
  lazymatch goal with
  | |- wp (mret _) _ _ => apply wp_ret
  | |- wp (throw _) _ _ => apply wp_throw
  | |- wp (_ ≫= _) _ _ => apply wp_bind
  | |- wp (try_catch _ _) _ _ => apply wp_try_catch
  | |- wp (try_finally _ _) _ _ => apply wp_try_finally
  | |- wp (call _) _ _ => first [apply wp_call_quiet | apply wp_call]
  | |- wp release _ _ => apply wp_ret
  | |- wp (λ _, _) _ _ => apply wp_unfold; wp_norm
  | |- wp (let _ := _ in _) _ _ => cbv zeta
  | |- wp (match _ with _ => _ end) _ _ => fail
  | |- wp ?m _ _ => let h := get_head m in unfold h; cbv beta iota
  end.

Ltac wp_case :=
  lazymatch goal with
  | |- wp (match ?x with _ => _ end) _ _ => destruct x eqn:?
  end.

Ltac wp_run := repeat first [ wp_step | wp_fault | wp_case | wp_if ].

(** ** Lists of rows *)

Lemma filter_nonempty {A} (P : A -> Prop) `{!∀ x, Decision (P x)} (l : list A) :
  (0 <? Z.of_nat (length (filter P l))) = bool_decide (Exists P l).
Proof.
  induction l as [|x l IH]; [done|].
  rewrite filter_cons. destruct (decide (P x)) as [Hx|Hx].
  - simpl length. rewrite (bool_decide_eq_true_2 _ (Exists_cons_hd P x l Hx)).
    apply Z.ltb_lt. lia.
  - rewrite IH. apply bool_decide_ext. rewrite Exists_cons. tauto.
Qed.

Lemma filter_nil_not_Exists {A} (P : A -> Prop) `{!∀ x, Decision (P x)} (l : list A) :
  filter P l = [] <-> ¬ Exists P l.
Proof.
  induction l as [|x l IH]; [rewrite Exists_nil; tauto|].
  rewrite filter_cons, Exists_cons. destruct (decide (P x)); [split; [done|tauto]|].
  rewrite IH. tauto.
Qed.

(** ** POST /register *)

Section RegistrationFacts.
Context `{Bcrypt}.

(** The transaction of lines 71-99 of [server.js], from a client that has
    just been connected: a rejection leaves the committed rows alone. *)
Lemma transaction_wp (bd : structured -> data_param) req u p dv tb su sd n plan :
  Registration.deviceId req = Some dv ->
  dv ≠ "" ->
  wp (try_finally
        (try_catch
           (_ ← BEGIN;
            deviceCheck ← SELECT_device_registrations dv;
            if (0 <? Z.of_nat (length deviceCheck)) then
              _ ← ROLLBACK;
              mret Registration.device_conflict
            else
              newUser ← INSERT_users u p;
              _ ← INSERT_device_registrations dv (fst newUser);
              _ ← INSERT_progress (fst newUser) (bd emptyProgress);
              _ ← COMMIT;
              mret (Registration.created newUser))
           (λ e, _ ← ROLLBACK; throw e))
        release)
     (λ r s, match r with
             | Resolved res => settled tb req res (rows (db s))
             | Rejected _ => rows (db s) = tb
             end)
     (Session (World (Database tb su sd) n (faults plan)) None).
Proof.
  intros Hdv Hne.
  repeat wp_step. wp_fault; [wp_run; done|].
  repeat wp_step. wp_fault; [wp_run; done|].
  repeat wp_step. rewrite filter_nonempty. case_bool_decide as Hreg.
  { wp_run; try done. left; done. }
  wp_run; try done.
  right. split; [done|]. unfold db; simpl.
  eexists dv, _, (DeviceRow _ dv _ _), _, _. done.
Qed.

(** Every registration request gets an answer, and that answer and the
    rows afterwards are [settled]. *)
Lemma register_wp bd req tb su sd n plan :
  wp (Registration.post_register bd req)
     (λ r s, ∃ res, r = Resolved res ∧ settled tb req res (rows (db s)))
     (Session (World (Database tb su sd) n (faults plan)) None).
Proof.
  unfold Registration.post_register. wp_step.
  destruct req as [u p dv]; simpl.
  destruct (truthy u) eqn:Hu, (truthy p) eqn:Hp, (truthy dv) eqn:Hd; simpl;
    try (wp_step; eexists; split; [done|left; done]).
  destruct u as [u|], p as [p|], dv as [dv|]; try done.
  repeat wp_step. wp_fault.
  { wp_run; (eexists; split; [done|left; done]). }
  wp_step.
  eapply wp_mono;
    [|apply (transaction_wp bd (Registration.Body (Some u) (Some p) (Some dv)));
      [done|by intros ->]].
  intros [res|e] s'; simpl.
  - eauto.
  - intros Hrows. wp_run; (eexists; split; [done|left; done]).
Qed.

Lemma register_settled bd req plan w :
  let out := serve (Registration.post_register bd req) (facing plan w) in
  settled (rows (committed w)) req out.1 (rows (committed out.2)).
Proof.
  destruct w as [[tb su sd] n e]. unfold facing; simpl.
  apply (serve_wp _ (λ res w', settled tb _ res (rows (committed w')))).
  eapply wp_mono; [|apply register_wp].
  intros r s' (res & -> & Hs). done.
Qed.
End RegistrationFacts.

(** ** The device table only grows *)

Section Histories.
Context `{Bcrypt} `{Jsonwebtoken} `{Process}.

Lemma handle_register v req :
  handle (POST_register v req) = serve (Registration.post_register (bind_data v) req).
Proof. destruct v; reflexivity. Qed.





End Histories.

(** ** C1 *)

Section DeviceOnce.
Context `{Bcrypt} `{Jsonwebtoken} `{Process}.

End DeviceOnce.

(** ** C2 *)

Section Rollback.
Context `{Bcrypt} `{Jsonwebtoken} `{Process}.

(** C2.  A registration request that is not answered 201, whatever the
    reason (a missing field, the device conflict, a username conflict, a
    storage failure at any round trip), leaves the three tables as they
    were; and a request with a missing field is answered 400 without the
    store being contacted at all. *)
Theorem failed_registration_persists_nothing (v : variant) (req : Registration.body)
    (plan : list (option jserror)) (w : world) :
  let out := handle (POST_register v req) (facing plan w) in
  (status out.1 ≠ 201 -> rows (committed out.2) = rows (committed w))
  ∧ (truthy (Registration.username req) && truthy (Registration.password req)
       && truthy (Registration.deviceId req) = false ->
     out.1 = Registration.fields_required ∧ out.2 = facing plan w).
Proof.
  cbv zeta. rewrite handle_register. split.
  - intros Hst.
    destruct (register_settled (bind_data v) req plan w) as [[_ ->]|[Hst' _]]; done.
  - intros Hmissing.
    apply (serve_wp _ (λ res w', res = Registration.fields_required ∧ w' = facing plan w)).
    unfold Registration.post_register. wp_step.
    destruct (truthy (Registration.username req)), (truthy (Registration.password req)),
      (truthy (Registration.deviceId req)); try done; simpl; by wp_step.
Qed.
End Rollback.

(** ** POST /login *)

Section LoginFacts.
Context `{Bcrypt} `{Jsonwebtoken} `{Process}.

(** A username that matches no row is answered [user_not_found]. *)
Lemma login_unknown_user v name pw w :
  ¬ Exists (λ r, u_username r = name) (users (rows (committed w))) ->
  (handle (POST_login v (Credentials (Some name) pw)) (facing [] w)).1 = user_not_found v.
Proof.
  intros Hnone. apply (proj2 (filter_nil_not_Exists _ _)) in Hnone.
  destruct w as [[tb su sd] n e]. unfold facing; simpl in *.
  destruct v; apply (serve_wp _ (λ res _, res = _));
    repeat wp_step; rewrite Hnone; by wp_step.
Qed.


(** A known user with a password that does not match is answered
    [wrong_password]. *)
Lemma login_wrong_password v name pw w :
  Forall (λ r, u_username r = name -> bcrypt_matches pw (u_password r) = false)
         (users (rows (committed w))) ->
  Exists (λ r, u_username r = name) (users (rows (committed w))) ->
  (handle (POST_login v (Credentials (Some name) (Some pw))) (facing [] w)).1
  = wrong_password v.
Proof.
  intros Hwrong Hsome.
  destruct w as [[tb su sd] n e]. unfold facing; simpl in *.
  destruct (filter (λ r, u_username r = name) (users tb)) as [|user rest] eqn:Hrows.
  { by apply (proj1 (filter_nil_not_Exists _ _)) in Hrows. }
  assert (bcrypt_matches pw (u_password user) = false) as Hpw.
  { assert (user ∈ filter (λ r, u_username r = name) (users tb)) as Hin
      by (rewrite Hrows; left).
    apply list_elem_of_filter in Hin as [Hname Hin].
    by apply (proj1 (Forall_forall _ _) Hwrong user Hin). }
  destruct v; apply (serve_wp _ (λ res _, res = _));
    repeat wp_step; rewrite Hrows; cbv beta iota; repeat wp_step;
    rewrite Hpw; by wp_step.
Qed.


(** The current router gives the same answer to an unknown user and to a
    wrong password. *)
Lemma routes_v2_login_generic name name' pw pw' w :
  ¬ Exists (λ r, u_username r = name) (users (rows (committed w))) ->
  Forall (λ r, u_username r = name' -> bcrypt_matches pw' (u_password r) = false)
         (users (rows (committed w))) ->
  Exists (λ r, u_username r = name') (users (rows (committed w))) ->
  (RoutesV2.post_login (Credentials (Some name) pw) (facing [] w)).1
  = (RoutesV2.post_login (Credentials (Some name') (Some pw')) (facing [] w)).1.
Proof.
  intros Hnone Hwrong Hsome.
  etrans; [exact (login_unknown_user routes_v2 name pw w Hnone)|].
  symmetry. exact (login_wrong_password routes_v2 name' pw' w Hwrong Hsome).
Qed.

(** [server.js] and the first router do not: the two answers differ in
    status (and in text). *)
Lemma legacy_login_reveals v name name' pw pw' w :
  v ≠ routes_v2 ->
  ¬ Exists (λ r, u_username r = name) (users (rows (committed w))) ->
  Forall (λ r, u_username r = name' -> bcrypt_matches pw' (u_password r) = false)
         (users (rows (committed w))) ->
  Exists (λ r, u_username r = name') (users (rows (committed w))) ->
  status (handle (POST_login v (Credentials (Some name) pw)) (facing [] w)).1 = 400
  ∧ status (handle (POST_login v (Credentials (Some name') (Some pw'))) (facing [] w)).1 = 401.
Proof.
  intros Hv Hnone Hwrong Hsome.
  rewrite (login_unknown_user v name pw w Hnone).
  rewrite (login_wrong_password v name' pw' w Hwrong Hsome).
  by destruct v.
Qed.

End LoginFacts.

(** ** GET /progress and POST /progress *)

Section ProgressFacts.
Context `{Bcrypt} `{Jsonwebtoken} `{Process}.

(** A stored document is returned as it is, and nothing is written. *)
Lemma get_progress_stored v user row w :
  progress (rows (committed w)) !! id user = Some row ->
  let out := handle (GET_progress v user) (facing [] w) in
  out.1 = res_json (p_data row) ∧ rows (committed out.2) = rows (committed w).
Proof.
  intros Hrow. destruct w as [[tb su sd] n e]. unfold facing; simpl in *.
  destruct v;
    apply (serve_wp _ (λ res w', res = _ ∧ rows (committed w') = tb));
    repeat wp_step; rewrite Hrow; cbv beta iota; by wp_step.
Qed.

(** Without a row, [server.js] and the first router answer the default
    document and write nothing. *)
Lemma get_progress_default v user w :
  v ≠ routes_v2 ->
  progress (rows (committed w)) !! id user = None ->
  let out := handle (GET_progress v user) (facing [] w) in
  out.1 = res_json (to_json emptyProgress) ∧ rows (committed out.2) = rows (committed w).
Proof.
  intros Hv Hrow. destruct w as [[tb su sd] n e]. unfold facing; simpl in *.
  destruct v; [| |done];
    apply (serve_wp _ (λ res w', res = _ ∧ rows (committed w') = tb));
    repeat wp_step; rewrite Hrow; cbv beta iota; by wp_step.
Qed.

(** Without a row, the current router inserts its own default document,
    provided the user exists (the foreign key), and answers it. *)
Lemma get_progress_creates user w :
  progress (rows (committed w)) !! id user = None ->
  Exists (λ r, u_id r = id user) (users (rows (committed w))) ->
  let out := RoutesV2.get_progress user (facing [] w) in
  out.1 = Response 200 [("X-Notice", "DATA_INITIALIZED")] [] (Json (to_json RoutesV2.empty))
  ∧ rows (committed out.2)
    = Tables (users (rows (committed w))) (device_registrations (rows (committed w)))
             (<[id user := ProgressRow (to_json RoutesV2.empty) (now w + 1 + 1)]>
                (progress (rows (committed w)))).
Proof.
  intros Hrow Huser. destruct w as [[tb su sd] n e]. unfold facing; simpl in *.
  apply (serve_wp _ (λ res w', res = _ ∧ rows (committed w') = _)).
  repeat wp_step. rewrite Hrow. cbv beta iota. repeat wp_step.
  rewrite Hrow, (bool_decide_eq_true_2 _ Huser).
  rewrite bool_decide_eq_false_2 by (by intros [??]).
  simpl. by wp_step.
Qed.

(** What a save does: nothing without a body; otherwise, when it is
    answered 200, the converted document is the user's row. *)
Lemma post_progress_outcome v user data plan w :
  let out := handle (POST_progress v user data) (facing plan w) in
  match data with
  | None => status out.1 = 400 ∧ out.2 = facing plan w
  | Some d =>
      (status out.1 = 200
       ∧ out.1 = ServerJs.saved
       ∧ ∃ j t, jsonb_in (bind_data v d) = Resolved j
                ∧ rows (committed out.2)
                  = Tables (users (rows (committed w)))
                           (device_registrations (rows (committed w)))
                           (<[id user := ProgressRow j t]> (progress (rows (committed w)))))
      ∨ (status out.1 = 500 ∧ rows (committed out.2) = rows (committed w))
  end.
Proof.
  destruct w as [[tb su sd] n e]. unfold facing; simpl in *.
  destruct data as [d|].
  - destruct v;
      apply (serve_wp _ (λ res w',
               (status res = 200 ∧ res = ServerJs.saved
                ∧ ∃ j t, jsonb_in _ = Resolved j ∧ rows (committed w') = _)
               ∨ (status res = 500 ∧ rows (committed w') = tb)));
      wp_run; (by right) || (left; eauto 10).
  - destruct v;
      apply (serve_wp _ (λ res w', status res = 400 ∧ w' = _)); by wp_run.
Qed.






(** Saving the same document again leaves the same documents stored (the
    row's [updated_at] is refreshed). *)
Lemma save_twice v user d plan plan' w :
  let w1 := (handle (POST_progress v user (Some d)) (facing plan w)).2 in
  let out := handle (POST_progress v user (Some d)) (facing plan' w1) in
  status (handle (POST_progress v user (Some d)) (facing plan w)).1 = 200 ->
  users (rows (committed out.2)) = users (rows (committed w1))
  ∧ device_registrations (rows (committed out.2)) = device_registrations (rows (committed w1))
  ∧ p_data <$> progress (rows (committed out.2)) = p_data <$> progress (rows (committed w1)).
Proof.
  intros w1 out Hst. subst out w1.
  destruct (post_progress_outcome v user (Some d) plan w)
    as [(_ & _ & j & t & Hj & Hrows)|[Hst' _]]; [|by rewrite Hst in Hst'].
  destruct (post_progress_outcome v user (Some d) plan'
              (handle (POST_progress v user (Some d)) (facing plan w)).2)
    as [(_ & _ & j' & t' & Hj' & ->)|[_ ->]]; [|done].
  rewrite Hrows. simpl. repeat split.
  rewrite Hj in Hj'. simplify_eq.
  by rewrite !fmap_insert, insert_insert_eq.
Qed.

(** C4, as the code has it.  For a user that has a row in [users] but none
    in [progress], [GET /progress] of the current router inserts the
    document [{settings: {theme: 'light', currentWeekIndex: 0}, lectures: {}}]
    and answers it (with the [X-Notice] header); a second [GET] answers the
    same document and writes nothing.  [server.js] and the first router
    answer [{settings: {theme: 'light'}, lectures: {}}] and create no row. *)
Theorem get_progress_initialises (user : identity) (w : world) :
  progress (rows (committed w)) !! id user = None ->
  Exists (λ r, u_id r = id user) (users (rows (committed w))) ->
  let first := RoutesV2.get_progress user (facing [] w) in
  let second := RoutesV2.get_progress user (facing [] first.2) in
  (first.1 = Response 200 [("X-Notice", "DATA_INITIALIZED")] [] (Json (to_json RoutesV2.empty))
   ∧ p_data <$> progress (rows (committed first.2)) !! id user = Some (to_json RoutesV2.empty)
   ∧ second.1 = res_json (to_json RoutesV2.empty)
   ∧ rows (committed second.2) = rows (committed first.2))
  ∧ (∀ v, v ≠ routes_v2 ->
       (handle (GET_progress v user) (facing [] w)).1 = res_json (to_json emptyProgress)
       ∧ rows (committed (handle (GET_progress v user) (facing [] w)).2) = rows (committed w)).
Proof.
  intros Hrow Huser first second.
  destruct (get_progress_creates user w Hrow Huser) as [Hres Hrows].
  assert (progress (rows (committed first.2)) !! id user
          = Some (ProgressRow (to_json RoutesV2.empty) (now w + 1 + 1))) as Hstored.
  { subst first. rewrite Hrows. simpl. apply lookup_insert_eq. }
  split; [split; [done|split; [by rewrite Hstored|]]|].
  - exact (get_progress_stored routes_v2 user _ first.2 Hstored).
  - intros v Hv. by apply get_progress_default.
Qed.

End ProgressFacts.

(** ** The session guard of [server.js] *)

Section Guard.
Context `{Jsonwebtoken}.

(** A piece without a space is not split. *)
Lemma split_spaces_word token :
  Forall (λ c, c ≠ " "%char) (String.list_ascii_of_string token) ->
  ServerJs.split_spaces token = [token].
Proof.
  induction token as [|c token IH]; [done|].
  intros [Hc Hchars]%Forall_cons. simpl.
  rewrite (proj2 (Ascii.eqb_neq _ _) Hc). by rewrite IH.
Qed.

(** A header of the form [Bearer <token>] carries that token. *)
Lemma bearer_token_of_header token :
  Forall (λ c, c ≠ " "%char) (String.list_ascii_of_string token) ->
  ServerJs.bearer_token (Some ("Bearer " +:+ token)) = Some token.
Proof.
  intros Hchars. unfold ServerJs.bearer_token, String.app. simpl.
  by rewrite (split_spaces_word token Hchars).
Qed.

(** A token that verifies reaches the handler, with the identity it
    asserts. *)
Lemma session_guard_admits (handler : identity -> world -> response * world)
    authorization token user w :
  ServerJs.bearer_token authorization = Some token ->
  jwt_verify token = Some user ->
  ServerJs.protected handler authorization w = handler user w.
Proof.
  intros Htoken Hverify. unfold ServerJs.protected, ServerJs.authenticateToken.
  by rewrite Htoken, Hverify.
Qed.

(** C7.  On a protected route of [server.js]: without a token the guard
    answers 401, with a token that [jwt.verify] refuses it answers 403, and
    in both cases the response and the server's state are the same
    whatever the route's handler is: the handler is not run. *)
Theorem session_guard_rejects (handler : identity -> world -> response * world)
    (authorization : option string) (w : world) :
  (ServerJs.bearer_token authorization = None ->
   ServerJs.protected handler authorization w = (sendStatus 401, w)
   ∧ status (sendStatus 401) = 401)
  ∧ (∀ token, ServerJs.bearer_token authorization = Some token ->
       jwt_verify token = None ->
       ServerJs.protected handler authorization w = (sendStatus 403, w)
       ∧ status (sendStatus 403) = 403).
Proof.
  unfold ServerJs.protected, ServerJs.authenticateToken. split.
  - by intros ->.
  - by intros token -> ->.
Qed.
End Guard.

(** ** The image proxy *)

Section ImageProxy.
Context `{RoutesV2.Platform}.

Lemma getHeader_setHeader name value hs :
  RoutesV2.getHeader name (RoutesV2.setHeader name value hs) = Some value.
Proof.
  induction hs as [|[n v] hs IH]; simpl.
  - by rewrite String.eqb_refl.
  - destruct (String.eqb n name) eqn:Hn; simpl.
    + by rewrite String.eqb_refl.
    + by rewrite Hn.
Qed.

Lemma getHeader_setHeader_other name name' value hs :
  name ≠ name' ->
  RoutesV2.getHeader name (RoutesV2.setHeader name' value hs) = RoutesV2.getHeader name hs.
Proof.
  intros Hne. induction hs as [|[n v] hs IH]; simpl.
  - by rewrite (proj2 (String.eqb_neq _ _)) by done.
  - destruct (String.eqb n name') eqn:Hn; simpl.
    + apply String.eqb_eq in Hn as ->.
      by rewrite !(proj2 (String.eqb_neq name' name)) by done.
    + by rewrite IH.
Qed.

(** The placeholder is a 200 with the SVG media type, whatever headers
    were set before. *)
Lemma placeholder_is_svg lastStatus hs :
  status (RoutesV2.placeholder lastStatus hs) = 200
  ∧ RoutesV2.getHeader "Content-Type" (headers (RoutesV2.placeholder lastStatus hs))
    = Some "image/svg+xml; charset=utf-8"
  ∧ body (RoutesV2.placeholder lastStatus hs) = Text (RoutesV2.placeholder_svg lastStatus).
Proof.
  repeat split. unfold RoutesV2.placeholder. simpl headers.
  rewrite getHeader_setHeader_other by done. apply getHeader_setHeader.
Qed.

(** When every fetch fails the loop runs out of trials and reaches the
    placeholder. *)
Lemma attempt_all_failed url remaining n lastStatus lastBody hs :
  (∀ k t, RoutesV2.fetch_failed (RoutesV2.fetch k url t) = true) ->
  ∃ lastStatus' hs',
    RoutesV2.attempt n url remaining lastStatus lastBody hs
    = RoutesV2.placeholder lastStatus' hs'.
Proof.
  intros Hfail. revert n lastStatus lastBody hs.
  induction remaining as [|t rest IH]; intros n lastStatus lastBody hs; simpl; [eauto|].
  specialize (Hfail n t).
  destruct (RoutesV2.fetch n url t) as [msg|st ct txt ab]; [apply IH|].
  simpl in Hfail. destruct (RoutesV2.ok st); [|apply IH].
  destruct ab as [ab|e]; [done|apply IH].
Qed.

(** C10.  A request whose [url] parses, is [https:] and names an allowed
    host, and all of whose fetches fail, is answered 200 with the
    placeholder SVG and the SVG media type. *)
Theorem image_proxy_falls_back (url : option string) (urlObj : RoutesV2.URL) :
  text url ≠ "" ->
  RoutesV2.URL_parse (text url) = Some urlObj ->
  RoutesV2.protocol urlObj = "https:" ->
  RoutesV2.isAllowedHost (RoutesV2.hostname urlObj) = true ->
  (∀ n hs, RoutesV2.fetch_failed (RoutesV2.fetch n (RoutesV2.href urlObj) hs) = true) ->
  ∃ lastStatus,
    status (RoutesV2.get_image url) = 200
    ∧ RoutesV2.getHeader "Content-Type" (headers (RoutesV2.get_image url))
      = Some "image/svg+xml; charset=utf-8"
    ∧ body (RoutesV2.get_image url) = Text (RoutesV2.placeholder_svg lastStatus).
Proof.
  intros Hraw Hparse Hhttps Hhost Hfail. unfold RoutesV2.get_image.
  rewrite (proj2 (String.eqb_neq _ _) Hraw), Hparse, Hhttps, Hhost, String.eqb_refl.
  cbn [negb orb].
  destruct (attempt_all_failed (RoutesV2.href urlObj) (RoutesV2.trials urlObj) 0 0 "" [] Hfail)
    as (lastStatus & hs & ->).
  exists lastStatus. apply placeholder_is_svg.
Qed.
End ImageProxy.

(** * Further properties of the code *)

(** ** Accounts *)

Section AccountFacts.
Context `{Bcrypt}.

(** The transaction, exactly: it rejects or refuses and the rows are the
    same, the sequences at most one step further; or it creates the
    account of an admissible request. *)
Lemma transaction_exact (bd : structured -> data_param) req u p dv tb su sd n plan :
  req = Registration.Body (Some u) (Some p) (Some dv) ->
  u ≠ "" -> p ≠ "" -> dv ≠ "" ->
  jsonb_in (bd emptyProgress) = Resolved (to_json emptyProgress) ->
  wp (try_finally
        (try_catch
           (_ ← BEGIN;
            deviceCheck ← SELECT_device_registrations dv;
            if (0 <? Z.of_nat (length deviceCheck)) then
              _ ← ROLLBACK;
              mret Registration.device_conflict
            else
              newUser ← INSERT_users u (bcrypt_digest p);
              _ ← INSERT_device_registrations dv (fst newUser);
              _ ← INSERT_progress (fst newUser) (bd emptyProgress);
              _ ← COMMIT;
              mret (Registration.created newUser))
           (λ e, _ ← ROLLBACK; throw e))
        release)
     (λ r s,
        (rows (db s) = tb
         ∧ (su ≤ users_id_seq (db s) ≤ su + 1)
         ∧ (sd ≤ device_registrations_id_seq (db s) ≤ sd + 1)
         ∧ (if r is Resolved res then res = Registration.device_conflict else True))
        ∨ (r = Resolved (Registration.created (su + 1, u))
           ∧ admissible req (Database tb su sd)
           ∧ ∃ t, db s = with_account req t (Database tb su sd)))
     (Session (World (Database tb su sd) n (faults plan)) None).
Proof.
  intros -> Hu Hp Hdv Hdata.
  repeat wp_step. wp_fault; [wp_run; left; repeat split; simpl; (done || lia)|].
  repeat wp_step. wp_fault; [wp_run; left; repeat split; simpl; (done || lia)|].
  repeat wp_step. rewrite filter_nonempty. case_bool_decide as Hreg.
  { wp_run; left; repeat split; simpl; (done || lia). }
  wp_run; try (left; repeat split; simpl; (done || lia)).
  injection Hdata as ->.
  right. split; [done|]. split; [|by eexists].
  unfold admissible, registered; simpl.
  repeat match goal with
         | Hb : bool_decide _ = false |- _ => apply bool_decide_eq_false in Hb
         | Hb : _ || _ = false |- _ => apply orb_false_iff in Hb as [??]
         | Hb : (_ <? _) = false |- _ => apply Z.ltb_ge in Hb
         | Hb : negb _ = _ |- _ => fail
         end.
  repeat split; try done.
  - by apply negb_true_iff, String.eqb_neq.
  - by apply negb_true_iff, String.eqb_neq.
  - by apply negb_true_iff, String.eqb_neq.
  - match goal with Hn : ¬ is_Some _ |- _ => by apply eq_None_not_Some end.
Qed.
End AccountFacts.

Section AccountOutcomes.
Context `{Bcrypt} `{Jsonwebtoken} `{Process}.

Lemma jsonb_in_emptyProgress v :
  jsonb_in (bind_data v emptyProgress) = Resolved (to_json emptyProgress).
Proof. by destruct v. Qed.

Lemma register_exact v req plan w :
  let out := handle (POST_register v req) (facing plan w) in
  (refusal out.1
   ∧ rows (committed out.2) = rows (committed w)
   ∧ (users_id_seq (committed w) ≤ users_id_seq (committed out.2)
      ≤ users_id_seq (committed w) + 1)
   ∧ (device_registrations_id_seq (committed w)
      ≤ device_registrations_id_seq (committed out.2)
      ≤ device_registrations_id_seq (committed w) + 1))
  ∨ (admissible req (committed w)
     ∧ out.1 = Registration.created
                 (users_id_seq (committed w) + 1, text (Registration.username req))
     ∧ ∃ t, committed out.2 = with_account req t (committed w)).
Proof.
  cbv zeta. rewrite handle_register.
  destruct w as [[tb su sd] n ev]. unfold facing; simpl.
  apply (serve_wp _ (λ res w',
    (refusal res ∧ rows (committed w') = tb
     ∧ (su ≤ users_id_seq (committed w') ≤ su + 1)
     ∧ (sd ≤ device_registrations_id_seq (committed w') ≤ sd + 1))
    ∨ (admissible req (Database tb su sd)
       ∧ res = Registration.created (su + 1, text (Registration.username req))
       ∧ ∃ t, committed w' = with_account req t (Database tb su sd)))).
  unfold Registration.post_register. wp_step.
  destruct req as [u p dv]; simpl.
  destruct (truthy u) eqn:Hu, (truthy p) eqn:Hp, (truthy dv) eqn:Hd; simpl;
    try (wp_step; left; unfold refusal; repeat split; simpl; (lia || tauto)).
  destruct u as [u|], p as [p|], dv as [dv|]; try done.
  apply negb_true_iff, String.eqb_neq in Hu, Hp, Hd.
  repeat wp_step. wp_fault.
  { wp_run; left; unfold refusal; repeat split; simpl; (lia || tauto). }
  wp_step.
  eapply wp_mono;
    [|by apply (transaction_exact (bind_data v)
                  (Registration.Body (Some u) (Some p) (Some dv)));
         [..|apply jsonb_in_emptyProgress]].
  intros [res|e] s'; simpl.
  - intros [(Hrows & Hsu & Hsd & ->)|(Hres & Hadm & t & Hdb)]; repeat wp_step.
    + left. unfold refusal. tauto.
    + right. simplify_eq. split; [done|]. split; [done|]. by exists t.
  - intros [(Hrows & Hsu & Hsd & _)|(? & _)]; [|done].
    wp_run; left; unfold refusal; repeat split; simpl; (done || lia || tauto).
Qed.

(** The account that a registration creates keeps the store consistent. *)
Lemma with_account_consistent req t d :
  consistent d -> admissible req d -> consistent (with_account req t d).
Proof.
  intros (Hids & Hnames & Hdids & Hdevs & Hseq & Hdseq & Hfk & Hpk)
         (_ & _ & _ & _ & _ & _ & Hname & Hdev & Hid & Hdid & _).
  unfold consistent, with_account, registered in *. simpl.
  rewrite !fmap_app, !Forall_app, !Forall_singleton. simpl.
  repeat split.
  - apply NoDup_app. split; [done|]. split; [|apply NoDup_singleton].
    intros x Hx Hin. apply list_elem_of_singleton in Hin as ->. apply Hid.
    apply list_elem_of_fmap in Hx as (r & ? & Hr). apply Exists_exists. by exists r.
  - apply NoDup_app. split; [done|]. split; [|apply NoDup_singleton].
    intros x Hx Hin. apply list_elem_of_singleton in Hin as ->. apply Hname.
    apply list_elem_of_fmap in Hx as (r & ? & Hr). apply Exists_exists. by exists r.
  - apply NoDup_app. split; [done|]. split; [|apply NoDup_singleton].
    intros x Hx Hin. apply list_elem_of_singleton in Hin as ->. apply Hdid.
    apply list_elem_of_fmap in Hx as (r & ? & Hr). apply Exists_exists. by exists r.
  - apply NoDup_app. split; [done|]. split; [|apply NoDup_singleton].
    intros x Hx Hin. apply list_elem_of_singleton in Hin as ->. apply Hdev.
    apply list_elem_of_fmap in Hx as (r & ? & Hr). apply Exists_exists. by exists r.
  - eapply Forall_impl; [exact Hseq|]. simpl. intros; lia.
  - lia.
  - eapply Forall_impl; [exact Hdseq|]. simpl. intros; lia.
  - lia.
  - eapply Forall_impl; [exact Hfk|]. simpl. intros r Hr. apply Exists_app. by left.
  - apply Exists_app. right. by constructor.
  - intros uid Hsome. apply Exists_app.
    destruct (decide (uid = users_id_seq d + 1)) as [->|Hne].
    + right. by constructor.
    + left. apply Hpk. by rewrite lookup_insert_ne in Hsome.
Qed.

End AccountOutcomes.

Section AccountTheorems.
Context `{Bcrypt} `{Jsonwebtoken} `{Process}.





End AccountTheorems.

Section Consistency.
Context `{Bcrypt} `{Jsonwebtoken} `{Process}.

Lemma consistent_sequences tb su sd su' sd' :
  consistent (Database tb su sd) -> su ≤ su' -> sd ≤ sd' ->
  consistent (Database tb su' sd').
Proof.
  intros (? & ? & ? & ? & Hseq & Hdseq & ? & ?) ??. unfold consistent in *; simpl in *.
  repeat split; try done.
  - eapply Forall_impl; [exact Hseq|]. simpl. intros; lia.
  - eapply Forall_impl; [exact Hdseq|]. simpl. intros; lia.
Qed.

Lemma consistent_progress tb su sd uid r :
  consistent (Database tb su sd) ->
  is_Some (progress tb !! uid) ∨ Exists (λ u, u_id u = uid) (users tb) ->
  consistent (Database (Tables (users tb) (device_registrations tb)
                               (<[uid := r]> (progress tb))) su sd).
Proof.
  intros (? & ? & ? & ? & ? & ? & ? & Hpk) Huid. unfold consistent in *; simpl in *.
  repeat split; try done.
  intros uid' Hsome. destruct (decide (uid' = uid)) as [->|Hne].
  - destruct Huid; auto.
  - apply Hpk. by rewrite lookup_insert_ne in Hsome.
Qed.

Lemma after_consistent w (r : request * list (option jserror)) :
  consistent (committed w) -> consistent (committed (after w r)).
Proof.
  intros Hcons. destruct r as [r plan]. unfold after. simpl fst; simpl snd.
  destruct r as [v req|v req|v user|v user data].
  - destruct (register_exact v req plan w)
      as [(_ & Hrows & Hsu & Hsd)|(Hadm & _ & t & ->)].
    + destruct (committed (handle (POST_register v req) (facing plan w)).2) as [tb' su' sd'].
      destruct w as [[tb su sd] n ev]. simpl in *. subst tb'.
      apply (consistent_sequences tb su sd); [done|lia..].
    + by apply with_account_consistent.
  - destruct w as [[tb su sd] n ev]. unfold facing; simpl in *.
    destruct v; apply (serve_wp _ (λ _ w', consistent (committed w'))); wp_run; done.
  - destruct w as [[tb su sd] n ev]. unfold facing; simpl in *.
    destruct v; apply (serve_wp _ (λ _ w', consistent (committed w'))); wp_run;
      try done;
      (apply consistent_progress; [done|];
       repeat match goal with
              | Hb : bool_decide _ = true |- _ => apply bool_decide_eq_true in Hb
              end; tauto).
  - destruct w as [[tb su sd] n ev]. unfold facing; simpl in *.
    destruct v; apply (serve_wp _ (λ _ w', consistent (committed w'))); wp_run;
      try done;
      (apply consistent_progress; [done|];
       repeat match goal with
              | Hb : bool_decide _ = true |- _ => apply bool_decide_eq_true in Hb
              end; tauto).
Qed.

(** X5.  Whatever requests are served and whatever storage failures they
    meet, a store that satisfies the constraints of the schema keeps
    satisfying them, and both sequences stay ahead of every id in their
    table. *)
Theorem run_keeps_consistent (history : list (request * list (option jserror)))
    (w : world) :
  consistent (committed w) -> consistent (committed (run history w)).
Proof.
  revert w. induction history as [|r history IH]; intros w Hcons; [done|].
  simpl. apply IH, after_consistent, Hcons.
Qed.


(** A login reads: the committed database is the same afterwards. *)
Lemma login_reads v req plan w :
  committed (handle (POST_login v req) (facing plan w)).2 = committed w.
Proof.
  destruct w as [[tb su sd] n ev]. unfold facing; simpl.
  destruct v; apply (serve_wp _ (λ _ w', committed w' = _)); wp_run; done.
Qed.

(** The statuses a login can be answered with. *)
Lemma login_statuses v req plan w :
  status (handle (POST_login v req) (facing plan w)).1 ∈ [200; 302; 400; 401; 500].
Proof.
  destruct w as [[tb su sd] n ev]. unfold facing; simpl.
  destruct v; apply (serve_wp _ (λ res _, status res ∈ [200; 302; 400; 401; 500]));
    wp_run; simpl; set_solver.
Qed.

(** X6.  A login never writes, whatever its fields and whatever failures
    it meets, and it is always answered, with 200 or 302 (success), 400,
    401 or 500. *)
Theorem login_only_reads (v : variant) (req : credentials)
    (plan : list (option jserror)) (w : world) :
  committed (handle (POST_login v req) (facing plan w)).2 = committed w
  ∧ status (handle (POST_login v req) (facing plan w)).1 ∈ [200; 302; 400; 401; 500].
Proof. split; [apply login_reads|apply login_statuses]. Qed.


End Consistency.

Section ProgressTheorems.
Context `{Bcrypt} `{Jsonwebtoken} `{Process}.


(** What a save leaves: the database as it was, or with the one row of
    the user replaced or added. *)
Lemma post_progress_writes v user data plan w :
  let out := handle (POST_progress v user data) (facing plan w) in
  (status out.1 ≠ 200 ∧ committed out.2 = committed w)
  ∨ (out.1 = ServerJs.saved
     ∧ (is_Some (progress (rows (committed w)) !! id user)
        ∨ Exists (λ u, u_id u = id user) (users (rows (committed w))))
     ∧ ∃ d j t, data = Some d ∧ jsonb_in (bind_data v d) = Resolved j
         ∧ committed out.2
           = Database (Tables (users (rows (committed w)))
                              (device_registrations (rows (committed w)))
                              (<[id user := ProgressRow j t]> (progress (rows (committed w)))))
                      (users_id_seq (committed w))
                      (device_registrations_id_seq (committed w))).
Proof.
  destruct w as [[tb su sd] n ev]. unfold facing; simpl.
  destruct v;
    apply (serve_wp _ (λ res w',
      (status res ≠ 200 ∧ committed w' = Database tb su sd)
      ∨ (res = ServerJs.saved
         ∧ (is_Some (progress tb !! id user) ∨ Exists (λ u, u_id u = id user) (users tb))
         ∧ ∃ d j t, data = Some d ∧ jsonb_in _ = Resolved j
             ∧ committed w' = Database (Tables (users tb) (device_registrations tb)
                                               (<[id user := ProgressRow j t]> (progress tb)))
                                       su sd)));
    wp_run; (by left) ||
      (right; split; [done|]; split;
       [repeat match goal with
               | Hb : bool_decide _ = true |- _ => apply bool_decide_eq_true in Hb
               end; tauto
       |eauto 10]).
Qed.

(** X9.  Saving the same document again, any number of times and whatever
    failures the replays meet, leaves the documents that the first save
    left: only the row's [updated_at] can differ. *)
Theorem replayed_save_changes_nothing (v : variant) (user : identity) (d : structured)
    (plan : list (option jserror)) (replays : list (list (option jserror))) (w : world) :
  let once := (handle (POST_progress v user (Some d)) (facing plan w)).2 in
  let again := run (map (λ p, (POST_progress v user (Some d), p)) replays) once in
  status (handle (POST_progress v user (Some d)) (facing plan w)).1 = 200 ->
  users (rows (committed again)) = users (rows (committed once))
  ∧ device_registrations (rows (committed again))
    = device_registrations (rows (committed once))
  ∧ p_data <$> progress (rows (committed again)) = p_data <$> progress (rows (committed once)).
Proof.
  intros once again Hst. subst again.
  destruct (post_progress_writes v user (Some d) plan w)
    as [[Hne _]|(_ & _ & d' & j & t & [= <-] & Hj & Hdb)]; [done|].
  fold once in Hdb.
  assert (p_data <$> progress (rows (committed once)) !! id user = Some j) as Hrow.
  { rewrite Hdb. simpl. by rewrite lookup_insert_eq. }
  clearbody once. clear Hdb Hst.
  revert once Hrow. induction replays as [|p replays IH]; intros once Hrow; [done|].
  change (run (map (λ p, (POST_progress v user (Some d), p)) (p :: replays)) once)
    with (run (map (λ p, (POST_progress v user (Some d), p)) replays)
              (handle (POST_progress v user (Some d)) (facing p once)).2).
  destruct (post_progress_writes v user (Some d) p once)
    as [[_ Hsame]|(_ & _ & d' & j' & t' & [= <-] & Hj' & Hdb)].
  - destruct (IH (handle (POST_progress v user (Some d)) (facing p once)).2)
      as (-> & -> & ->); [by rewrite Hsame|]. by rewrite Hsame.
  - rewrite Hj in Hj'. injection Hj' as <-.
    destruct (IH (handle (POST_progress v user (Some d)) (facing p once)).2)
      as (-> & -> & ->).
    { rewrite Hdb. simpl. by rewrite lookup_insert_eq. }
    rewrite Hdb. simpl. repeat split.
    rewrite fmap_insert. apply map_eq. intros k.
    destruct (decide (k = id user)) as [->|Hk].
    + rewrite lookup_insert_eq. by rewrite lookup_fmap.
    + by rewrite lookup_insert_ne.
Qed.

(** X10.  The routers cannot save an array with elements: [pg] sends it
    as an array literal, the JSONB column refuses it, and the request is
    answered 500 with the store untouched. *)
Theorem routers_refuse_arrays (v : variant) (user : identity) (x : json) (items : list json)
    (plan : list (option jserror)) (w : world) :
  v ≠ server_js ->
  let out := handle (POST_progress v user (Some (Arr (x :: items)))) (facing plan w) in
  status out.1 = 500 ∧ committed out.2 = committed w.
Proof.
  intros Hv. destruct w as [[tb su sd] n ev]. unfold facing; simpl.
  destruct v; [done|..];
    apply (serve_wp _ (λ res w', status res = 500 ∧ committed w' = Database tb su sd));
    wp_run; done.
Qed.

(** X11.  A save touches one row at most: the users, the device
    registrations, both sequences and every other user's progress are as
    they were, whatever the body and whatever the failures. *)
Theorem save_is_confined (v : variant) (user : identity) (data : request_body)
    (plan : list (option jserror)) (w : world) :
  let out := handle (POST_progress v user data) (facing plan w) in
  users (rows (committed out.2)) = users (rows (committed w))
  ∧ device_registrations (rows (committed out.2)) = device_registrations (rows (committed w))
  ∧ users_id_seq (committed out.2) = users_id_seq (committed w)
  ∧ device_registrations_id_seq (committed out.2)
    = device_registrations_id_seq (committed w)
  ∧ ∀ other, other ≠ id user ->
      progress (rows (committed out.2)) !! other = progress (rows (committed w)) !! other.
Proof.
  intros out. subst out.
  destruct (post_progress_writes v user data plan w)
    as [[_ ->]|(_ & _ & d & j & t & _ & _ & ->)]; [done|].
  simpl. repeat split. intros other Hother. by rewrite lookup_insert_ne.
Qed.

(** X12.  A save for an id that has neither a progress row nor a user row
    (a token that outlived its account) violates the foreign key: it is
    answered 500 and stores nothing. *)
Theorem save_requires_a_user (v : variant) (user : identity) (d : structured)
    (plan : list (option jserror)) (w : world) :
  progress (rows (committed w)) !! id user = None ->
  ¬ Exists (λ u, u_id u = id user) (users (rows (committed w))) ->
  let out := handle (POST_progress v user (Some d)) (facing plan w) in
  status out.1 = 500 ∧ committed out.2 = committed w.
Proof.
  intros Hrow Huser. destruct w as [[tb su sd] n ev]. unfold facing; simpl in *.
  destruct v;
    apply (serve_wp _ (λ res w', status res = 500 ∧ committed w' = Database tb su sd));
    wp_run; try done; exfalso;
    repeat match goal with
           | Hb : bool_decide _ = true |- _ => apply bool_decide_eq_true in Hb
           end;
    first [ done
          | match goal with
            | Hs : is_Some _ |- _ => rewrite Hrow in Hs; by destruct Hs
            end ].
Qed.

(** X13.  A read never changes a stored document: [server.js] and the
    first router write nothing at all, and the current router can only add
    the row of the user who asks, when there is none. *)
Theorem read_never_overwrites (v : variant) (user : identity)
    (plan : list (option jserror)) (w : world) :
  let out := handle (GET_progress v user) (facing plan w) in
  users (rows (committed out.2)) = users (rows (committed w))
  ∧ device_registrations (rows (committed out.2)) = device_registrations (rows (committed w))
  ∧ (∀ uid row, progress (rows (committed w)) !! uid = Some row ->
       progress (rows (committed out.2)) !! uid = Some row)
  ∧ (∀ uid, uid ≠ id user ->
       progress (rows (committed out.2)) !! uid = progress (rows (committed w)) !! uid)
  ∧ (v ≠ routes_v2 -> committed out.2 = committed w).
Proof.
  destruct w as [[tb su sd] n ev]. unfold facing; simpl.
  destruct v;
    apply (serve_wp _ (λ res w',
      users (rows (committed w')) = users tb
      ∧ device_registrations (rows (committed w')) = device_registrations tb
      ∧ (∀ uid row, progress tb !! uid = Some row ->
           progress (rows (committed w')) !! uid = Some row)
      ∧ (∀ uid, uid ≠ id user -> progress (rows (committed w')) !! uid = progress tb !! uid)
      ∧ (_ ≠ routes_v2 -> committed w' = Database tb su sd)));
    wp_run; simpl; repeat split; try done.
  all: try (intros uid ?; by rewrite lookup_insert_ne).
  all: intros uid row Hrow; rewrite lookup_insert_ne; [done|].
  all: intros <-.
  all: repeat match goal with
              | Hb : bool_decide _ = false |- _ => apply bool_decide_eq_false in Hb
              end.
  all: match goal with Hn : ¬ is_Some _ |- _ => apply Hn; by eexists end.
Qed.
End ProgressTheorems.

(** ** More on the session guard and on the image proxy *)

Section GuardTheorems.
Context `{Jsonwebtoken}.

Lemma split_spaces_first word rest :
  Forall (λ c, c ≠ " "%char) (String.list_ascii_of_string word) ->
  ServerJs.split_spaces (word +:+ " " +:+ rest) = word :: ServerJs.split_spaces rest.
Proof.
  induction word as [|c word IH]; [done|].
  intros [Hc Hword]%Forall_cons. unfold String.app in *. simpl.
  rewrite (proj2 (Ascii.eqb_neq _ _) Hc). by rewrite IH.
Qed.

Lemma split_spaces_nonempty s : ServerJs.split_spaces s ≠ [].
Proof.
  destruct s as [|c s]; [done|]. simpl.
  destruct (Ascii.eqb c " "); [done|]. by destruct (ServerJs.split_spaces s).
Qed.

(** X14.  The guard reads the second piece of the [Authorization] header
    and does not look at the first: whatever the scheme word is ([Bearer]
    or anything else without a space), a token that verifies brings the
    request to the handler, as the user the token names. *)
Theorem guard_ignores_the_scheme (handler : identity -> world -> response * world)
    (scheme token trailer : string) (user : identity) (w : world) :
  Forall (λ c, c ≠ " "%char) (String.list_ascii_of_string scheme) ->
  Forall (λ c, c ≠ " "%char) (String.list_ascii_of_string token) ->
  jwt_verify token = Some user ->
  ServerJs.protected handler (Some (scheme +:+ " " +:+ token)) w = handler user w
  ∧ ServerJs.protected handler (Some (scheme +:+ " " +:+ token +:+ " " +:+ trailer)) w
    = handler user w.
Proof.
  intros Hscheme Htoken Hverify.
  assert (∀ rest, ServerJs.bearer_token (Some (scheme +:+ " " +:+ rest))
                  = head (ServerJs.split_spaces rest)) as Hbearer.
  { intros rest. unfold ServerJs.bearer_token.
    destruct (String.eqb _ "") eqn:Hempty.
    - apply String.eqb_eq in Hempty. destruct scheme; discriminate.
    - rewrite (split_spaces_first scheme rest Hscheme). simpl.
      by destruct (ServerJs.split_spaces rest). }
  unfold ServerJs.protected, ServerJs.authenticateToken. split.
  - rewrite Hbearer, (split_spaces_word token Htoken). simpl. by rewrite Hverify.
  - rewrite Hbearer, (split_spaces_first token trailer Htoken). simpl. by rewrite Hverify.
Qed.
End GuardTheorems.

Lemma substring_all s : String.substring 0 (String.length s) s = s.
Proof. induction s as [|c s IH]; [done|]. simpl. by rewrite IH. Qed.

Lemma substring_suffix pre suf :
  String.substring (String.length pre) (String.length suf) (pre +:+ suf) = suf.
Proof. induction pre as [|c pre IH]; [apply substring_all|done]. Qed.

Lemma length_app_string a b :
  String.length (a +:+ b) = (String.length a + String.length b)%nat.
Proof. induction a as [|c a IH]; [done|]. simpl. by rewrite <- IH. Qed.

Lemma substring_split (i : nat) s :
  (i <= String.length s)%nat ->
  s = String.substring 0 i s +:+ String.substring i (String.length s - i) s.
Proof.
  revert i. induction s as [|c s IH]; intros [|i] Hi; simpl in *; try lia.
  - done.
  - by rewrite substring_all.
  - unfold String.app in *. simpl. f_equal. apply IH. lia.
Qed.

(** [endsWith] is the suffix test. *)
Lemma endsWith_spec s suffix :
  RoutesV2.endsWith s suffix = true <-> ∃ pre, s = pre +:+ suffix.
Proof.
  unfold RoutesV2.endsWith. rewrite andb_true_iff, Nat.leb_le, String.eqb_eq. split.
  - intros [Hle Hsub]. exists (String.substring 0 (String.length s - String.length suffix) s).
    pose proof (substring_split (String.length s - String.length suffix) s) as Hs.
    replace (String.length s - (String.length s - String.length suffix))%nat
      with (String.length suffix) in Hs by lia.
    rewrite Hsub in Hs. apply Hs. lia.
  - intros [pre ->]. rewrite length_app_string. split; [lia|].
    replace (String.length pre + String.length suffix - String.length suffix)%nat
      with (String.length pre) by lia.
    apply substring_suffix.
Qed.

(** X15.  The allow-list admits exactly the two listed hosts and their
    subdomains: a host name that merely ends in the text of a listed host,
    without the dot, is not admitted. *)
Theorem isAllowedHost_spec (hostname : string) :
  RoutesV2.isAllowedHost hostname = true
  <-> ∃ allowed, allowed ∈ RoutesV2.ALLOWED_IMAGE_HOSTS
        ∧ (hostname = allowed ∨ ∃ sub, hostname = sub +:+ "." +:+ allowed).
Proof.
  unfold RoutesV2.isAllowedHost. rewrite existsb_exists. split.
  - intros (a & Ha%list_elem_of_In & [Heq%String.eqb_eq|Hsuf%endsWith_spec]%orb_true_iff);
      exists a; eauto.
  - intros (a & Ha%list_elem_of_In & Hhost). exists a. split; [done|].
    apply orb_true_iff. destruct Hhost as [->|Hsub].
    + left. apply String.eqb_refl.
    + right. by apply endsWith_spec.
Qed.

Section ProxyTheorems.

(** X16.  A request without a [url], with one that does not parse, that
    is not [https:] or whose host is not on the allow-list is answered 400
    and nothing is fetched: the answer is the same whatever the network
    would have said. *)
Theorem image_proxy_refuses_without_fetching (P Q : RoutesV2.Platform) (url : option string) :
  (∀ raw, @RoutesV2.URL_parse P raw = @RoutesV2.URL_parse Q raw) ->
  text url = ""
  ∨ @RoutesV2.URL_parse P (text url) = None
  ∨ (∃ urlObj, @RoutesV2.URL_parse P (text url) = Some urlObj
       ∧ (RoutesV2.protocol urlObj ≠ "https:"
          ∨ RoutesV2.isAllowedHost (RoutesV2.hostname urlObj) = false)) ->
  status (@RoutesV2.get_image P url) = 400
  ∧ @RoutesV2.get_image P url = @RoutesV2.get_image Q url.
Proof.
  intros Hparse Hbad. unfold RoutesV2.get_image. rewrite <- Hparse.
  destruct (String.eqb (text url) "") eqn:Hraw; [done|].
  apply String.eqb_neq in Hraw.
  destruct Hbad as [?|[->|(urlObj & -> & Hbad)]]; [done..|].
  destruct Hbad as [Hproto%String.eqb_neq| ->].
  - by rewrite Hproto.
  - by rewrite orb_true_r.
Qed.

Context `{RoutesV2.Platform}.

Lemma loop_headers_set hs c :
  loop_headers hs ->
  RoutesV2.setHeader "Cache-Control" (RoutesV2.cache_for "86400")
    (RoutesV2.setHeader "Content-Type" c hs)
  = [("Content-Type", c); ("Cache-Control", RoutesV2.cache_for "86400")].
Proof. by intros [->|[c' ->]]. Qed.

Lemma attempt_first_success url before t after n lastStatus lastBody hs st ct txt ab :
  loop_headers hs ->
  (∀ i t', before !! i = Some t' ->
           RoutesV2.fetch_failed (RoutesV2.fetch (n + i) url t') = true) ->
  RoutesV2.fetch (n + length before) url t = RoutesV2.FetchResponse st ct txt (Resolved ab) ->
  RoutesV2.ok st = true ->
  RoutesV2.attempt n url (before ++ t :: after) lastStatus lastBody hs = passed_through ct ab.
Proof.
  revert n lastStatus lastBody hs.
  induction before as [|t0 before IH]; intros n lastStatus lastBody hs Hhs Hfail Hfetch Hok.
  - simpl in *. rewrite Nat.add_0_r in Hfetch. rewrite Hfetch, Hok.
    unfold passed_through. by rewrite loop_headers_set.
  - simpl. pose proof (Hfail 0%nat t0 eq_refl) as H0. rewrite Nat.add_0_r in H0.
    assert (∀ i t', before !! i = Some t' ->
              RoutesV2.fetch_failed (RoutesV2.fetch (S n + i) url t') = true) as Hfail'.
    { intros i t' Hi. specialize (Hfail (S i) t' Hi).
      by replace (n + S i)%nat with (S n + i)%nat in Hfail by lia. }
    assert (RoutesV2.fetch (S n + length before) url t
            = RoutesV2.FetchResponse st ct txt (Resolved ab)) as Hfetch'.
    { rewrite <- Hfetch. f_equal. simpl. lia. }
    destruct (RoutesV2.fetch n url t0) as [msg|st0 ct0 txt0 ab0]; [by apply IH|].
    simpl in H0. destruct (RoutesV2.ok st0); [|by apply IH].
    destruct ab0 as [ab0|e]; [done|]. apply IH; try done.
    right. eexists. by apply loop_headers_set.
Qed.

(** X17.  The first of the three fetches that delivers is passed through:
    200, its bytes, its [content-type] (or [application/octet-stream]) and
    a one-day cache lifetime, whatever the earlier fetches left behind;
    the remaining trials are not made. *)
Theorem image_proxy_passes_through (url : option string) (urlObj : RoutesV2.URL)
    (k : nat) (t : list (string * string)) st ct txt ab :
  text url ≠ "" ->
  RoutesV2.URL_parse (text url) = Some urlObj ->
  RoutesV2.protocol urlObj = "https:" ->
  RoutesV2.isAllowedHost (RoutesV2.hostname urlObj) = true ->
  RoutesV2.trials urlObj !! k = Some t ->
  (∀ i t', (i < k)%nat -> RoutesV2.trials urlObj !! i = Some t' ->
     RoutesV2.fetch_failed (RoutesV2.fetch i (RoutesV2.href urlObj) t') = true) ->
  RoutesV2.fetch k (RoutesV2.href urlObj) t = RoutesV2.FetchResponse st ct txt (Resolved ab) ->
  RoutesV2.ok st = true ->
  RoutesV2.get_image url = passed_through ct ab.
Proof.
  intros Hraw Hparse Hhttps Hhost Hk Hfail Hfetch Hok. unfold RoutesV2.get_image.
  rewrite (proj2 (String.eqb_neq _ _) Hraw), Hparse, Hhttps, Hhost, String.eqb_refl.
  cbn [negb orb].
  rewrite <- (take_drop_middle _ _ _ Hk).
  assert (length (take k (RoutesV2.trials urlObj)) = k) as Hlen.
  { apply length_take_le. apply lookup_lt_Some in Hk. lia. }
  apply (attempt_first_success _ _ _ _ 0 _ _ _ st ct txt ab); [by left| |by rewrite Hlen|done].
  intros i t' Hi. simpl. apply lookup_take_Some in Hi as [Hi Hlt]. by apply Hfail.
Qed.

Lemma attempt_last_status url init t n lastStatus lastBody hs :
  (∀ k t', RoutesV2.fetch_failed (RoutesV2.fetch k url t') = true) ->
  ∃ hs',
    RoutesV2.attempt n url (init ++ [t]) lastStatus lastBody hs
    = RoutesV2.placeholder (status_after (RoutesV2.fetch (n + length init) url t)) hs'.
Proof.
  intros Hfail. revert n lastStatus lastBody hs.
  induction init as [|t0 init IH]; intros n lastStatus lastBody hs; simpl.
  - rewrite Nat.add_0_r. specialize (Hfail n t).
    destruct (RoutesV2.fetch n url t) as [msg|st ct txt ab]; simpl; [by eexists|].
    simpl in Hfail. destruct (RoutesV2.ok st); [|by eexists].
    destruct ab as [ab|e]; [done|by eexists].
  - replace (n + S (length init))%nat with (S n + length init)%nat by lia.
    specialize (Hfail n t0).
    destruct (RoutesV2.fetch n url t0) as [msg|st ct txt ab]; [apply IH|].
    simpl in Hfail. destruct (RoutesV2.ok st); [|apply IH].
    destruct ab as [ab|e]; [done|apply IH].
Qed.

(** X18.  When all three fetches fail, the placeholder reports the last
    one: the [X-Upstream-Status] header and the text of the picture carry
    the status of the third response, or 0 when the third fetch threw. *)
Theorem placeholder_reports_last_failure (url : option string) (urlObj : RoutesV2.URL) :
  text url ≠ "" ->
  RoutesV2.URL_parse (text url) = Some urlObj ->
  RoutesV2.protocol urlObj = "https:" ->
  RoutesV2.isAllowedHost (RoutesV2.hostname urlObj) = true ->
  (∀ n hs, RoutesV2.fetch_failed (RoutesV2.fetch n (RoutesV2.href urlObj) hs) = true) ->
  let lastStatus :=
    status_after (RoutesV2.fetch 2 (RoutesV2.href urlObj)
                    ((RoutesV2.COMMON ++ [("Referer", RoutesV2.origin urlObj +:+ "/");
                                      ("Origin", RoutesV2.origin urlObj)])%list)) in
  RoutesV2.getHeader "X-Upstream-Status" (headers (RoutesV2.get_image url))
  = Some (pretty lastStatus)
  ∧ body (RoutesV2.get_image url) = Text (RoutesV2.placeholder_svg lastStatus).
Proof.
  intros Hraw Hparse Hhttps Hhost Hfail. unfold RoutesV2.get_image.
  rewrite (proj2 (String.eqb_neq _ _) Hraw), Hparse, Hhttps, Hhost, String.eqb_refl.
  cbn [negb orb].
  destruct (attempt_last_status (RoutesV2.href urlObj)
              (take 2 (RoutesV2.trials urlObj))
              (RoutesV2.COMMON ++ [("Referer", RoutesV2.origin urlObj +:+ "/");
                                   ("Origin", RoutesV2.origin urlObj)])%list
              0 0 "" [] Hfail) as [hs' Hplace].
  assert (RoutesV2.attempt 0 (RoutesV2.href urlObj) (RoutesV2.trials urlObj) 0 "" []
          = RoutesV2.placeholder
              (status_after
                 (RoutesV2.fetch 2 (RoutesV2.href urlObj)
                    (RoutesV2.COMMON ++ [("Referer", RoutesV2.origin urlObj +:+ "/");
                                         ("Origin", RoutesV2.origin urlObj)])%list)) hs')
    as -> by exact Hplace.
  split; [|done]. unfold RoutesV2.placeholder. simpl headers.
  rewrite !getHeader_setHeader_other by done. apply getHeader_setHeader.
Qed.
End ProxyTheorems.

(** ** The intake of client logs *)

Section ClientLogTheorems.
Context `{Jsonwebtoken} `{ClientLog.ServerLogger}.

Lemma post_log_counts now req logRate :
  (ClientLog.post_log now req logRate).1.2
  = <[ClientLog.client_ip req :=
        ClientLog.counted now (logRate !! ClientLog.client_ip req)]> logRate.
Proof.
  unfold ClientLog.post_log. cbv zeta.
  repeat case_match; simplify_eq/=; done.
Qed.

Lemma post_log_dropped now req logRate :
  let res := (ClientLog.post_log now req logRate).1.1 in
  let calls := (ClientLog.post_log now req logRate).2 in
  (status res = 429 <->
   ClientLog.LOG_LIMIT_PER_MIN
   < ClientLog.count (ClientLog.counted now (logRate !! ClientLog.client_ip req)))
  ∧ (status res = 429 -> calls = []).
Proof.
  unfold ClientLog.post_log, ClientLog.intake_failed. cbv zeta.
  destruct (ClientLog.LOG_LIMIT_PER_MIN <? _) eqn:Hlimit.
  - apply Z.ltb_lt in Hlimit. simpl. by split.
  - apply Z.ltb_ge in Hlimit.
    repeat case_match; simplify_eq/=; split; (split || idtac); (lia || done).
Qed.

Lemma serve_logs_cons now req rest logRate :
  ClientLog.serve_logs ((now, req) :: rest) logRate
  = let out := ClientLog.post_log now req logRate in
    let later := ClientLog.serve_logs rest out.1.2 in
    ((out.1.1, out.2) :: later.1, later.2).
Proof.
  simpl. destruct (ClientLog.post_log now req logRate) as [[res logRate'] calls].
  simpl. by destruct (ClientLog.serve_logs rest logRate').
Qed.

Lemma within_step a t0 c logRate now req :
  within a t0 c logRate ->
  (ClientLog.client_ip req = a -> t0 <= now <= t0 + 60000) ->
  within a t0 (if bool_decide (ClientLog.client_ip req = a) then c + 1 else c)
    (ClientLog.post_log now req logRate).1.2
  ∧ (ClientLog.client_ip req = a ->
     ClientLog.count (ClientLog.counted now (logRate !! ClientLog.client_ip req)) = c + 1).
Proof.
  intros Hin Hnow. rewrite post_log_counts.
  case_bool_decide as Ha.
  - specialize (Hnow Ha). rewrite Ha. split; [|intros _].
    + right. destruct Hin as [[-> Hnone]|(r & Hsome & Hr)].
      * rewrite Hnone. unfold ClientLog.counted. simpl.
        destruct (now + 60000 <? now) eqn:Hlt; [apply Z.ltb_lt in Hlt; lia|].
        simpl. exists (now + 60000). rewrite lookup_insert_eq. split; [done|lia].
      * rewrite Hsome. unfold ClientLog.counted. simpl.
        destruct (r <? now) eqn:Hlt; [apply Z.ltb_lt in Hlt; lia|].
        simpl. exists r. by rewrite lookup_insert_eq.
    + destruct Hin as [[-> Hnone]|(r & Hsome & Hr)].
      * rewrite Hnone. unfold ClientLog.counted. simpl.
        by destruct (now + 60000 <? now).
      * rewrite Hsome. unfold ClientLog.counted. simpl.
        destruct (r <? now) eqn:Hlt; [apply Z.ltb_lt in Hlt; lia|]. done.
  - split; [|done].
    destruct Hin as [[-> Hnone]|(r & Hsome & Hr)].
    + left. by rewrite lookup_insert_ne.
    + right. exists r. by rewrite lookup_insert_ne.
Qed.

Lemma log_limit_from (a : string) (t0 : Z) reqs :
  ∀ c logRate j now req res calls,
  within a t0 c logRate ->
  (∀ now' req', (now', req') ∈ reqs -> ClientLog.client_ip req' = a ->
     t0 <= now' <= t0 + 60000) ->
  reqs !! j = Some (now, req) ->
  ClientLog.client_ip req = a ->
  (ClientLog.serve_logs reqs logRate).1 !! j = Some (res, calls) ->
  (status res = 429 <->
   ClientLog.LOG_LIMIT_PER_MIN
   <= c + Z.of_nat (length (filter (λ r, ClientLog.client_ip r.2 = a) (take j reqs))))
  ∧ (status res = 429 -> calls = []).
Proof.
  induction reqs as [|[now1 req1] rest IH]; intros c logRate j now req res calls
    Hin Htimes Hj Ha Hanswer; [done|].
  rewrite serve_logs_cons in Hanswer. cbv zeta in Hanswer. simpl in Hanswer.
  destruct (within_step a t0 c logRate now1 req1 Hin) as [Hnext Hcount].
  { intros Ha1. apply (Htimes now1 req1); [left|done]. }
  destruct j as [|j]; simpl in Hj, Hanswer.
  - injection Hj as -> ->. injection Hanswer as <- <-.
    destruct (post_log_dropped now req logRate) as [Hdrop Hsilent].
    cbv zeta in Hdrop, Hsilent. rewrite (Hcount Ha) in Hdrop.
    simpl. split; [|done]. rewrite Hdrop. lia.
  - destruct (IH _ _ j now req res calls Hnext) as [Hdrop Hsilent]; try done.
    { intros now' req' Hel. apply Htimes. by right. }
    split; [|done]. rewrite Hdrop. simpl. rewrite filter_cons. simpl.
    case_bool_decide; case_decide; simpl; try done; lia.
Qed.

(** X19.  The limiter of [/log] counts per address: of the requests an
    address sends within one minute, whatever other addresses send in
    between, exactly those after the first 120 are answered 429, and for
    these the logger is not called. *)
Theorem log_limit_per_address (a : string) (t0 : Z) reqs logRate j now req res calls :
  logRate !! a = None ->
  (∀ now' req', (now', req') ∈ reqs -> ClientLog.client_ip req' = a ->
     t0 <= now' <= t0 + 60000) ->
  reqs !! j = Some (now, req) ->
  ClientLog.client_ip req = a ->
  (ClientLog.serve_logs reqs logRate).1 !! j = Some (res, calls) ->
  (status res = 429 <->
   (120 <= length (filter (λ r, ClientLog.client_ip r.2 = a) (take j reqs)))%nat)
  ∧ (status res = 429 -> calls = []).
Proof.
  intros Hnone Htimes Hj Ha Hanswer.
  destruct (log_limit_from a t0 reqs 0 logRate j now req res calls) as [Hdrop Hsilent];
    try done.
  { by left. }
  split; [|done]. rewrite Hdrop. unfold ClientLog.LOG_LIMIT_PER_MIN. lia.
Qed.

Lemma counted_reset now e t :
  now <= t ->
  (∀ e', e = Some e' -> ClientLog.reset e' <= t + 60000) ->
  ClientLog.reset (ClientLog.counted now e) <= t + 60000.
Proof.
  intros Hnow He. unfold ClientLog.counted. destruct e as [e'|]; simpl.
  - specialize (He e' eq_refl). destruct (ClientLog.reset e' <? now); simpl; lia.
  - destruct (now + 60000 <? now); simpl; lia.
Qed.

Lemma windows_by_step t now req logRate :
  now <= t -> windows_by t logRate ->
  windows_by t (ClientLog.post_log now req logRate).1.2.
Proof.
  intros Hnow Hwin a e. rewrite post_log_counts.
  destruct (decide (a = ClientLog.client_ip req)) as [->|Hne].
  - rewrite lookup_insert_eq. intros [= <-]. apply counted_reset; [done|].
    intros e' He'. by apply (Hwin _ _ He').
  - rewrite lookup_insert_ne by done. apply Hwin.
Qed.

Lemma windows_by_mono t t' logRate :
  t <= t' -> windows_by t logRate -> windows_by t' logRate.
Proof. intros Ht Hwin a e He. specialize (Hwin a e He). lia. Qed.

Lemma log_reopens_from reqs :
  ∀ t logRate j now req res calls,
  windows_by t logRate ->
  reqs !! j = Some (now, req) ->
  t + 60000 < now ->
  (∀ i now' req', (i < j)%nat -> reqs !! i = Some (now', req') -> now' + 60000 < now) ->
  (ClientLog.serve_logs reqs logRate).1 !! j = Some (res, calls) ->
  status res ≠ 429.
Proof.
  induction reqs as [|[now1 req1] rest IH]; intros t logRate j now req res calls
    Hwin Hj Ht Hearlier Hanswer; [done|].
  rewrite serve_logs_cons in Hanswer. cbv zeta in Hanswer. simpl in Hanswer.
  destruct j as [|j]; simpl in Hj, Hanswer.
  - injection Hj as -> ->. injection Hanswer as <- <-.
    destruct (post_log_dropped now req logRate) as [Hdrop _]. cbv zeta in Hdrop.
    rewrite Hdrop. unfold ClientLog.counted, ClientLog.LOG_LIMIT_PER_MIN.
    destruct (logRate !! ClientLog.client_ip req) as [e|] eqn:He; simpl.
    + specialize (Hwin _ _ He).
      destruct (ClientLog.reset e <? now) eqn:Hlt; [simpl; lia|].
      apply Z.ltb_ge in Hlt. lia.
    + destruct (now + 60000 <? now); simpl; lia.
  - apply (IH (Z.max t now1) (ClientLog.post_log now1 req1 logRate).1.2
             j now req res calls); try done.
    + apply windows_by_step; [lia|]. eapply windows_by_mono; [|done]. lia.
    + specialize (Hearlier 0%nat now1 req1). simpl in Hearlier.
      specialize (Hearlier ltac:(lia) eq_refl). lia.
    + intros i now' req' Hi Hlook. apply (Hearlier (S i) now' req'); [lia|done].
Qed.

(** X20.  The limit lasts a minute: a request that comes more than a minute
    after every request before it is never answered 429, however many
    requests its address sent before. *)
Theorem log_limit_expires reqs j now req res calls :
  reqs !! j = Some (now, req) ->
  (∀ i now' req', (i < j)%nat -> reqs !! i = Some (now', req') -> now' + 60000 < now) ->
  (ClientLog.serve_logs reqs ∅).1 !! j = Some (res, calls) ->
  status res ≠ 429.
Proof.
  intros Hj Hearlier Hanswer.
  assert (Hempty : ∀ t, windows_by t ∅).
  { intros t a e Hlook. by rewrite lookup_empty in Hlook. }
  destruct reqs as [|[now1 req1] rest]; [done|].
  destruct j as [|j].
  - apply (log_reopens_from ((now1, req1) :: rest) (now - 60001) ∅ 0%nat
             now req res calls); [apply Hempty|done|lia|done|done].
  - apply (log_reopens_from ((now1, req1) :: rest) now1 ∅ (S j)
             now req res calls); [apply Hempty|done| |done|done].
    specialize (Hearlier 0%nat now1 req1). simpl in Hearlier.
    specialize (Hearlier ltac:(lia) eq_refl). lia.
Qed.

Lemma lvl_allowed level : ClientLog.lvl level ∈ ClientLog.allowed.
Proof.
  assert (Hinfo : "info" ∈ ClientLog.allowed)
    by (unfold ClientLog.allowed; set_solver).
  unfold ClientLog.lvl. destruct level as [[]|]; try done.
  by case_bool_decide.
Qed.

(** X21.  Whatever a client puts in the body, the handler of [/log] only
    calls the logger's methods [debug], [info], [warn] and [error], and
    hands it at most ten arguments of the client, each a string. *)
Theorem log_calls_are_sanitised now req logRate call :
  call ∈ (ClientLog.post_log now req logRate).2 ->
  ClientLog.method call ∈ ClientLog.allowed
  ∧ ∀ page ua ip user args ts,
      ClientLog.detail call = ClientLog.ClientExtra page ua ip user (Some args) ts ->
      (length args <= 10)%nat.
Proof.
  assert (Hwarn : "warn" ∈ ClientLog.allowed) by (unfold ClientLog.allowed; set_solver).
  assert (Hargs : ∀ a l, ClientLog.converted_args a = Some l -> (length l <= 10)%nat).
  { intros a l. unfold ClientLog.converted_args. case_match; try done.
    intros [= <-]. rewrite length_take. lia. }
  unfold ClientLog.post_log, ClientLog.intake_failed. cbv zeta.
  repeat case_match; simplify_eq/=; intros Hin;
    repeat match goal with
    | Hin : _ ∈ [] |- _ => by apply not_elem_of_nil in Hin
    | Hin : _ ∈ _ :: _ |- _ => apply elem_of_cons in Hin as [->|Hin]
    end; simpl; (split; [by (apply lvl_allowed || exact Hwarn)|]);
    intros ?????? [= ]; subst; eauto.
Qed.

(** X22.  A client is never told that its log entry failed: when the
    logger accepts the warning about a failed intake, the answer to [/log]
    carries [{ ok: true }] with status 200 or 429, also when
    [fromRequest] or the logging call itself throws. *)
Theorem log_always_acknowledges now req logRate :
  (∀ call err, ClientLog.detail call = ClientLog.IntakeFailure err ->
     ClientLog.logger_throws call = None) ->
  let res := (ClientLog.post_log now req logRate).1.1 in
  body res = Json ClientLog.ok_true ∧ (status res = 200 ∨ status res = 429).
Proof.
  intros Hwarn. unfold ClientLog.post_log, ClientLog.intake_failed. cbv zeta.
  repeat case_match; simplify_eq/=; try (split; [done|]; by (left + right));
    match goal with
    | Hthrows : ClientLog.logger_throws ?c = Some _ |- _ =>
        by rewrite (Hwarn c _ eq_refl) in Hthrows
    end.
Qed.

End ClientLogTheorems.

(** ** The proxy to the CMS *)

Lemma unreserved_of_matching c :
  Materials.between 65 90 c || Materials.between 48 57 c = true ->
  Materials.unreserved c = true.
Proof.
  unfold Materials.unreserved. intros Hc.
  destruct (Materials.between 65 90 c); [done|].
  destruct (Materials.between 48 57 c); [|done].
  by rewrite orb_true_r.
Qed.

Lemma encodeURIComponent_unreserved s :
  forallb Materials.unreserved (String.list_ascii_of_string s) = true ->
  Materials.encodeURIComponent s = s.
Proof.
  induction s as [|c s IH]; [done|]. simpl.
  intros [Hc Hs]%andb_true_iff. rewrite Hc. by rewrite IH.
Qed.

Lemma encodeURIComponent_subject s :
  Materials.subject_matches s = true -> Materials.encodeURIComponent s = s.
Proof.
  unfold Materials.subject_matches. intros [_ Hs]%andb_true_iff.
  apply encodeURIComponent_unreserved.
  apply forallb_forall. intros c Hc.
  apply unreserved_of_matching.
  by apply (proj1 (forallb_forall _ _) Hs).
Qed.

Lemma encodeURIComponent_chapter (n : Z) :
  1 <= n <= 50 -> Materials.encodeURIComponent (pretty n) = pretty n.
Proof.
  intros Hn.
  assert (Hk : ∀ k, (k < 50)%nat ->
            Materials.encodeURIComponent (pretty (1 + Z.of_nat k))
            = pretty (1 + Z.of_nat k)).
  { intros k Hk. do 50 (destruct k as [|k]; [by vm_compute|]). lia. }
  specialize (Hk (Z.to_nat (n - 1)) ltac:(lia)).
  by replace (1 + Z.of_nat (Z.to_nat (n - 1))) with n in Hk by lia.
Qed.

Section MaterialsTheorems.
Context `{Materials.Cms}.

Lemma relay_status upstream :
  status (Materials.relay upstream) = 200
  ∨ status (Materials.relay upstream) = 500
  ∨ status (Materials.relay upstream) = 502.
Proof.
  unfold Materials.relay. repeat case_match; simpl; auto.
Qed.

(** X23.  The proxy to the CMS answers 400 exactly when the subject is not
    ten characters of [A-Z0-9] or the chapter does not parse to an integer
    from 1 to 50; the answer then is one of the two fixed messages, whatever
    the CMS would have said. *)
Theorem materials_validates (subject chapter : option Materials.query_value) :
  let res := Materials.get_materials subject chapter in
  let valid :=
    Materials.subject_matches (Materials.query_text subject) = true
    ∧ ∃ n, Materials.parseInt (Materials.query_text chapter) = Some n ∧ 1 <= n <= 50 in
  (status res = 400 <-> ¬ valid)
  ∧ (¬ valid -> res = Materials.invalid_subject ∨ res = Materials.invalid_chapter).
Proof.
  cbv zeta. unfold Materials.get_materials. cbv zeta.
  destruct (Materials.subject_matches _) eqn:Hsubject; simpl.
  2: { split; [split; [intros _ [? _]; done|done]|by left]. }
  destruct (Materials.parseInt _) as [n|] eqn:Hparse.
  2: { split; [split; [intros _ [_ (n & ? & _)]; done|done]|by right]. }
  destruct ((n <? 1) || (50 <? n)) eqn:Hrange.
  { apply orb_true_iff in Hrange.
    assert (¬ (1 <= n <= 50)) by (destruct Hrange as [?%Z.ltb_lt|?%Z.ltb_lt]; lia).
    split; [split; [intros _ [_ (n' & [= <-] & ?)]; done|done]|by right]. }
  apply orb_false_iff in Hrange as [?%Z.ltb_ge ?%Z.ltb_ge].
  assert (Hvalid : true = true ∧ ∃ n', Some n = Some n' ∧ 1 <= n' <= 50)
    by (split; [done|exists n; split; [done|lia]]).
  split; [|by intros []].
  split; [|by intros []].
  destruct (truthy Materials.CMS_LINK); simpl; [|done].
  destruct (relay_status (Materials.fetch
    (Materials.address (text Materials.CMS_LINK) (Materials.query_text subject) n)
    [("Accept", "application/json")])) as [Hs|[Hs|Hs]]; rewrite Hs; done.
Qed.

(** X24.  For parameters that pass the validation the proxy asks the CMS
    once, at the configured address followed by [?subject=S&chapter=N] with
    the subject as given and the chapter in decimal: nothing of the request
    reaches the address but these ten characters and this number. *)
Theorem materials_address (subject chapter : option Materials.query_value)
    (baseUrl : string) (n : Z) :
  Materials.subject_matches (Materials.query_text subject) = true ->
  Materials.parseInt (Materials.query_text chapter) = Some n ->
  1 <= n <= 50 ->
  Materials.CMS_LINK = Some baseUrl -> baseUrl ≠ "" ->
  Materials.get_materials subject chapter
  = Materials.relay
      (Materials.fetch
         (baseUrl +:+ "?subject=" +:+ Materials.query_text subject
          +:+ "&chapter=" +:+ pretty n)
         [("Accept", "application/json")]).
Proof.
  intros Hsubject Hparse Hn Hbase Hne.
  unfold Materials.get_materials. cbv zeta.
  rewrite Hsubject, Hparse. simpl.
  destruct (n <? 1) eqn:Hlo; [apply Z.ltb_lt in Hlo; lia|].
  destruct (50 <? n) eqn:Hhi; [apply Z.ltb_lt in Hhi; lia|]. simpl.
  rewrite Hbase. unfold Materials.address.
  rewrite (encodeURIComponent_subject _ Hsubject), (encodeURIComponent_chapter _ Hn).
  destruct baseUrl; done.
Qed.

(** X25.  The proxy answers 200 only with JSON of the CMS: the answer of
    the CMS had a status from 200 to 299 and a content type that names
    [application/json], its body parsed, and what is sent is that
    document. *)
Theorem materials_passes_json_only (subject chapter : option Materials.query_value) :
  status (Materials.get_materials subject chapter) = 200 ->
  ∃ n st content_type txt data,
    Materials.parseInt (Materials.query_text chapter) = Some n
    ∧ Materials.fetch
        (Materials.address (text Materials.CMS_LINK) (Materials.query_text subject) n)
        [("Accept", "application/json")]
      = Materials.Reply st content_type txt (Resolved data)
    ∧ 200 <= st <= 299
    ∧ Materials.includes (default "" content_type) "application/json" = true
    ∧ Materials.get_materials subject chapter = res_json data.
Proof.
  unfold Materials.get_materials. cbv zeta.
  destruct (Materials.subject_matches _); simpl; [|done].
  destruct (Materials.parseInt _) as [n|]; [|done].
  destruct ((n <? 1) || (50 <? n)); [done|].
  destruct (truthy Materials.CMS_LINK); simpl; [|done].
  destruct (Materials.fetch _ _) as [e|st ct txt js] eqn:Hfetch; simpl; [done|].
  destruct (RoutesV2.ok st) eqn:Hok; simpl; [|done].
  destruct (Materials.includes _ _) eqn:Hjson; simpl; [|done].
  destruct js as [data|e]; simpl; [|done].
  intros _. exists n, st, ct, txt, data.
  unfold RoutesV2.ok in Hok. apply andb_true_iff in Hok as [?%Z.leb_le ?%Z.leb_le].
  done.
Qed.

End MaterialsTheorems.

(** ** The preparation of the schema *)

#[local] Existing Instances Startup.M_ret Startup.M_bind.

Lemma triple_ret {A} (a : A) (P I : Startup.catalog -> Prop) Q :
  (∀ c, P c -> I c ∧ Q a c) -> triple P (mret a) I Q.
Proof.
  intros HP s Hs. destruct (HP _ Hs) as [HI HQ].
  split; [done|]. by intros a' [= <-].
Qed.

Lemma triple_bind {A B} (m : Startup.M A) (f : A -> Startup.M B) P I Q R :
  triple P m I Q ->
  (∀ a, triple (λ c, I c ∧ Q a c) (f a) I R) ->
  triple P (m ≫= f) I R.
Proof.
  intros Hm Hf s Hs. destruct (Hm s Hs) as [HI HQ].
  unfold mbind, Startup.M_bind. destruct (m s) as [[a|e] s']; simpl in *.
  - apply Hf. split; [done|]. by apply HQ.
  - by split.
Qed.

Lemma triple_try_catch {A} (m : Startup.M A) h P I Q :
  triple P m I Q -> (∀ e, triple I (h e) I Q) ->
  triple P (Startup.try_catch m h) I Q.
Proof.
  intros Hm Hh s Hs. destruct (Hm s Hs) as [HI HQ].
  unfold Startup.try_catch. destruct (m s) as [[a|e] s']; simpl in *.
  - split; [done|]. intros a' [= <-]. by apply HQ.
  - by apply Hh.
Qed.

Lemma triple_released {A} (m : Startup.M A) P I Q :
  triple P m I Q -> triple P (Startup.try_finally m Startup.release) I Q.
Proof.
  intros Hm s Hs. destruct (Hm s Hs) as [HI HQ].
  unfold Startup.try_finally, Startup.release. by destruct (m s) as [r s'].
Qed.

Lemma triple_call {A} (stmt : Startup.catalog -> outcome A * Startup.catalog)
    (P I : Startup.catalog -> Prop) Q :
  (∀ c, P c -> I c) ->
  (∀ c, P c -> I (stmt c).2 ∧ ∀ a, (stmt c).1 = Resolved a -> Q a (stmt c).2) ->
  triple P (Startup.call stmt) I Q.
Proof.
  intros Hfault Hstmt [c plan] Hs. simpl in Hs. unfold Startup.call. simpl.
  destruct plan as [|[e|] rest]; simpl.
  - specialize (Hstmt c Hs). by destruct (stmt c).
  - split; [by apply Hfault|done].
  - specialize (Hstmt c Hs). by destruct (stmt c).
Qed.

Lemma triple_weaken {A} (m : Startup.M A) (P P' I : Startup.catalog -> Prop) Q :
  (∀ c, P' c -> P c) -> triple P m I Q -> triple P' m I Q.
Proof. intros HP Hm s Hs. apply Hm. by apply HP. Qed.

(** X26.  Preparing the schema never touches an account: whatever fails
    on the way, a table [users] or [device_registrations] that exists keeps
    exactly its rows. *)
Theorem startup_keeps_accounts (plan : list (option jserror)) (c : Startup.catalog) :
  (∀ us, Startup.users c = Some us -> Startup.users (Startup.prepared plan c) = Some us)
  ∧ (∀ ds, Startup.device_registrations c = Some ds ->
       Startup.device_registrations (Startup.prepared plan c) = Some ds).
Proof.
  set (I := λ c' : Startup.catalog,
    (∀ us, Startup.users c = Some us -> Startup.users c' = Some us)
    ∧ (∀ ds, Startup.device_registrations c = Some ds ->
         Startup.device_registrations c' = Some ds)).
  assert (Hkeep : ∀ A (stmt : Startup.catalog -> outcome A * Startup.catalog),
            (∀ c', I c' -> I (stmt c').2) ->
            triple I (Startup.call stmt) I (λ _ _, True)).
  { intros A stmt Hstmt. apply triple_call; [done|]. intros c' Hc'. by split; [apply Hstmt|]. }
  assert (Hinit : triple I Startup.initializeDatabase I (λ _ _, True)).
  { unfold Startup.initializeDatabase.
    eapply triple_bind; [by apply Hkeep|]. intros ?.
    apply triple_released, triple_try_catch; [|intros e; by apply triple_ret].
    eapply triple_weaken; [by intros c' [Hc' _]|].
    eapply triple_bind.
    { apply Hkeep. intros c' [Hu Hd]. unfold Startup.CREATE_users.
      destruct (Startup.users c') eqn:Hc'; simpl.
      - split; [|done]. intros us Hus. rewrite Hc'. by apply Hu.
      - split; [|done]. intros us Hus. specialize (Hu us Hus). congruence. }
    intros ?. eapply triple_weaken; [by intros c' [Hc' _]|].
    eapply triple_bind.
    { apply Hkeep. intros c' [Hu Hd]. unfold Startup.CREATE_device_registrations.
      destruct (Startup.device_registrations c') eqn:Hc';
        destruct (Startup.users c') eqn:Hus'; simpl;
        (split; [intros us Hus; rewrite ?Hus'; by apply Hu|]);
        intros ds Hds; specialize (Hd ds Hds); simpl; congruence. }
    intros ?. eapply triple_weaken; [by intros c' [Hc' _]|].
    eapply triple_bind; [by apply Hkeep|].
    intros res. eapply triple_weaken; [by intros c' [Hc' _]|].
    destruct (Startup.outdated res); [|by apply triple_ret].
    eapply triple_bind; [by apply Hkeep|].
    intros ?. eapply triple_weaken; [by intros c' [Hc' _]|].
    apply Hkeep. intros c' [Hu Hd]. unfold Startup.CREATE_progress.
    destruct (Startup.progress c'); destruct (Startup.users c') eqn:Hus'; simpl;
      (split; [intros us Hus; rewrite ?Hus'; by apply Hu|done]). }
  apply (Hinit (Startup.Server c plan)). by split.
Qed.

(** X27.  A table [progress] whose column [data] has a type that does not
    contain [text] (the JSONB table, for one) is never dropped or emptied
    by the preparation of the schema, whatever fails on the way. *)
Theorem startup_keeps_current_progress (plan : list (option jserror))
    (c : Startup.catalog) (t : Startup.progress_table) :
  Startup.progress c = Some t ->
  Startup.outdated (Startup.data_types (Some t)) = false ->
  Startup.progress (Startup.prepared plan c) = Some t.
Proof.
  intros Ht Hcurrent.
  set (I := λ c' : Startup.catalog, Startup.progress c' = Some t).
  assert (Hkeep : ∀ A (stmt : Startup.catalog -> outcome A * Startup.catalog),
            (∀ c', I c' -> I (stmt c').2) ->
            triple I (Startup.call stmt) I (λ _ _, True)).
  { intros A stmt Hstmt. apply triple_call; [done|]. intros c' Hc'. by split; [apply Hstmt|]. }
  assert (Hinit : triple I Startup.initializeDatabase I (λ _ _, True)).
  { unfold Startup.initializeDatabase.
    eapply triple_bind; [by apply Hkeep|]. intros ?.
    apply triple_released, triple_try_catch; [|intros e; by apply triple_ret].
    eapply triple_weaken; [by intros c' [Hc' _]|].
    eapply triple_bind.
    { apply Hkeep. intros c' Hc'. unfold Startup.CREATE_users.
      by destruct (Startup.users c'). }
    intros ?. eapply triple_weaken; [by intros c' [Hc' _]|].
    eapply triple_bind.
    { apply Hkeep. intros c' Hc'. unfold Startup.CREATE_device_registrations.
      by destruct (Startup.device_registrations c'); destruct (Startup.users c'). }
    intros ?. eapply triple_weaken; [by intros c' [Hc' _]|].
    eapply (triple_bind _ _ _ _ (λ res _, res = Startup.data_types (Some t))).
    { apply triple_call; [done|]. intros c' Hc'. split; [done|].
      intros res [= <-]. simpl. by rewrite Hc'. }
    intros res. destruct (Startup.outdated res) eqn:Hres.
    - intros s [_ ->]. congruence.
    - apply triple_ret. by intros c' [Hc' _]. }
  by apply (Hinit (Startup.Server c plan)).
Qed.

Lemma call_quiet {A} (stmt : Startup.catalog -> outcome A * Startup.catalog) c plan :
  quiet plan ->
  ∃ plan', quiet plan'
    ∧ Startup.call stmt (Startup.Server c plan) = ((stmt c).1, Startup.Server (stmt c).2 plan').
Proof.
  intros Hquiet. unfold Startup.call. simpl.
  destruct Hquiet as [|x rest -> Hrest]; destruct (stmt c) as [r c'].
  - exists []. split; [constructor|done].
  - exists rest. by split.
Qed.

Lemma prepared_quiet plan c :
  quiet plan -> Startup.prepared plan c = ready c.
Proof.
  intros Hquiet. unfold Startup.prepared, Startup.initializeDatabase.
  unfold mbind, Startup.M_bind, Startup.try_finally, Startup.try_catch, Startup.release.
  destruct (call_quiet Startup.connect c plan Hquiet) as (p1 & Hq1 & ->). simpl.
  destruct (call_quiet Startup.CREATE_users c p1 Hq1) as (p2 & Hq2 & ->).
  set (c2 := (Startup.CREATE_users c).2).
  assert (Hc2 : (Startup.CREATE_users c).1 = Resolved ()
                ∧ c2 = Startup.Catalog (Some (default [] (Startup.users c)))
                         (Startup.device_registrations c) (Startup.progress c)).
  { unfold c2, Startup.CREATE_users. destruct c as [[us|] ds pr]; done. }
  destruct Hc2 as [-> Hc2].
  destruct (call_quiet Startup.CREATE_device_registrations c2 p2 Hq2) as (p3 & Hq3 & ->).
  set (c3 := (Startup.CREATE_device_registrations c2).2).
  assert (Hc3 : (Startup.CREATE_device_registrations c2).1 = Resolved ()
                ∧ c3 = Startup.Catalog (Some (default [] (Startup.users c)))
                         (Some (default [] (Startup.device_registrations c)))
                         (Startup.progress c)).
  { unfold c3. rewrite Hc2. unfold Startup.CREATE_device_registrations. simpl.
    destruct (Startup.device_registrations c); done. }
  destruct Hc3 as [-> Hc3].
  destruct (call_quiet Startup.SELECT_data_type c3 p3 Hq3) as (p4 & Hq4 & ->).
  simpl. rewrite Hc3. simpl. unfold ready.
  destruct (Startup.outdated _); [|done].
  match goal with |- context [Startup.call Startup.DROP_progress (Startup.Server ?c4 p4)] =>
    destruct (call_quiet Startup.DROP_progress c4 p4 Hq4) as (p5 & Hq5 & ->) end.
  simpl.
  match goal with |- context [Startup.call Startup.CREATE_progress (Startup.Server ?c5 p5)] =>
    destruct (call_quiet Startup.CREATE_progress c5 p5 Hq5) as (p6 & Hq6 & ->) end.
  done.
Qed.

(** X28.  When nothing fails, the preparation of the schema leaves the
    three tables in place, with a table [progress] that a further run
    accepts as it is: running it again changes nothing. *)
Theorem startup_is_idempotent (plan plan' : list (option jserror)) (c : Startup.catalog) :
  Forall (λ x, x = None) plan -> Forall (λ x, x = None) plan' ->
  let c' := Startup.prepared plan c in
  is_Some (Startup.users c') ∧ is_Some (Startup.device_registrations c')
  ∧ is_Some (Startup.progress c')
  ∧ Startup.outdated (Startup.data_types (Startup.progress c')) = false
  ∧ Startup.prepared plan' c' = c'.
Proof.
  intros Hquiet Hquiet'. cbv zeta.
  rewrite (prepared_quiet plan c Hquiet), (prepared_quiet plan' _ Hquiet').
  assert (Hcurrent : Startup.outdated (Startup.data_types (Startup.progress (ready c))) = false).
  { unfold ready. simpl.
    destruct (Startup.outdated (Startup.data_types (Startup.progress c))) eqn:Hold;
      [by vm_compute|done]. }
  repeat split; try done.
  - unfold ready. simpl.
    destruct (Startup.outdated (Startup.data_types (Startup.progress c))) eqn:Hold; [done|].
    destruct (Startup.progress c) as [t|]; [done|]. by vm_compute in Hold.
  - unfold ready at 1. rewrite Hcurrent. by unfold ready.
Qed.

(** X29.  The old table is dropped before the new one is created, and not
    in one transaction: when the store fails at the [CREATE TABLE] that
    follows the [DROP TABLE], no table [progress] is left, and
    [initializeDatabase] still resolves. *)
Theorem startup_can_leave_no_progress (plan : list (option jserror))
    (c : Startup.catalog) (e : jserror) :
  Startup.outdated (Startup.data_types (Startup.progress c)) = true ->
  take 5 plan = replicate 5 None ->
  plan !! 5%nat = Some (Some e) ->
  (Startup.initializeDatabase (Startup.Server c plan)).1 = Resolved ()
  ∧ Startup.progress (Startup.prepared plan c) = None.
Proof.
  intros Hold Hquiet Hfault.
  do 5 (destruct plan as [|? plan]; [done|]).
  destruct plan as [|? plan]; [done|].
  injection Hquiet as -> -> -> -> ->. injection Hfault as ->.
  unfold Startup.prepared, Startup.initializeDatabase.
  unfold mbind, Startup.M_bind, Startup.try_finally, Startup.try_catch, Startup.release.
  destruct c as [us ds pr]. simpl in Hold.
  destruct us, ds; simpl; rewrite Hold; done.
Qed.

(** ** The device id *)

Section DeviceIdTheorems.
Context `{Browser.Crypto}.

(** X30.  A browser keeps its device id: once [getDeviceId] has been
    called, every further call returns the same id, draws no new one and
    leaves [localStorage] as it is; the other keys of [localStorage] are
    never touched. *)
Theorem device_id_is_stable (p : Browser.page) :
  (∀ n, Browser.randomUUID n ≠ "") ->
  let first := Browser.getDeviceId p in
  Browser.getDeviceId first.2 = (first.1, first.2)
  ∧ first.1 ≠ ""
  ∧ ∀ key, key ≠ "deviceId" ->
      Browser.localStorage first.2 !! key = Browser.localStorage p !! key.
Proof.
  intros Huuid. cbv zeta. unfold Browser.getDeviceId. cbv zeta.
  destruct (Browser.localStorage p !! "deviceId") as [d|] eqn:Hstored; simpl.
  - destruct (String.eqb_spec d "") as [->|Hd]; simpl.
    + rewrite lookup_insert_eq. simpl. specialize (Huuid (Browser.drawn p)).
      destruct (String.eqb_spec (Browser.randomUUID (Browser.drawn p)) ""); [done|].
      simpl. split; [done|]. split; [done|].
      intros key Hkey. by rewrite lookup_insert_ne.
    + rewrite Hstored. simpl.
      destruct (String.eqb_spec d ""); [done|]. simpl. done.
  - rewrite lookup_insert_eq. simpl. specialize (Huuid (Browser.drawn p)).
    destruct (String.eqb_spec (Browser.randomUUID (Browser.drawn p)) ""); [done|].
    simpl. split; [done|]. split; [done|].
    intros key Hkey. by rewrite lookup_insert_ne.
Qed.

End DeviceIdTheorems.

(** * The claims on a concrete deployment

    From here on the libraries are the ones of [Fixtures]. *)

#[local] Existing Instances Fixtures.bcrypt Fixtures.jsonwebtoken Fixtures.process
  Fixtures.platform.


(** C2 at work: Mallory's registration from Alice's device loses its
    connection at the ROLLBACK; nothing of it is stored. *)
Lemma failed_registration_persists_nothing_witness :
  status (handle (POST_register routes_v2 Fixtures.mallory)
            (facing [None; None; None; Some (JsError None "Connection terminated")]
               Fixtures.with_alice)).1 = 500
  ∧ rows (committed (handle (POST_register routes_v2 Fixtures.mallory)
            (facing [None; None; None; Some (JsError None "Connection terminated")]
               Fixtures.with_alice)).2)
    = rows (committed Fixtures.with_alice).
Proof.
  split; [vm_compute; reflexivity|].
  apply (failed_registration_persists_nothing routes_v2 Fixtures.mallory
           [None; None; None; Some (JsError None "Connection terminated")]
           Fixtures.with_alice).
  vm_compute. discriminate.
Defined.

(** C3 on [server.js] and the first router: an unknown username is
    answered 400 "user not found", a wrong password 401 "password is not
    correct". *)
Theorem legacy_login_tells_unknown_user_from_wrong_password :
  (ServerJs.post_login (Credentials (Some "ghost") (Some "x")) Fixtures.with_alice).1
  = status_json 400 (error_object "ユーザーが見つかりません。")
  ∧ (ServerJs.post_login (Credentials (Some "alice") (Some "x")) Fixtures.with_alice).1
    = status_json 401 (error_object "パスワードが正しくありません。")
  ∧ (RoutesV1.post_login (Credentials (Some "ghost") (Some "x")) Fixtures.with_alice).1
    = status_json 400 (error_object "ユーザーが見つかりません。")
  ∧ (RoutesV1.post_login (Credentials (Some "alice") (Some "x")) Fixtures.with_alice).1
    = status_json 401 (error_object "パスワードが正しくありません。")
  ∧ (RoutesV2.post_login (Credentials (Some "ghost") (Some "x")) Fixtures.with_alice).1
    = (RoutesV2.post_login (Credentials (Some "alice") (Some "x")) Fixtures.with_alice).1.
Proof. repeat split; vm_compute; reflexivity. Qed.

(** C4 as stated fails: the document the current router creates has a
    [currentWeekIndex], and [server.js] creates no row. *)
Lemma get_progress_default_counterexample :
  body (RoutesV2.get_progress Fixtures.alice_user Fixtures.without_progress).1
  = Json (to_json RoutesV2.empty)
  ∧ to_json RoutesV2.empty ≠ to_json emptyProgress
  ∧ progress (rows (committed
       (ServerJs.get_progress Fixtures.alice_user Fixtures.without_progress).2)) !! 1
    = None.
Proof.
  split; [vm_compute; reflexivity|]. split; [|vm_compute; reflexivity].
  intros Heq.
  apply (f_equal (λ j, if j is JObj m then
                         if m !! "settings" is Some (JObj s) then s !! "currentWeekIndex"
                         else None
                       else None)) in Heq.
  vm_compute in Heq. discriminate.
Qed.

Lemma get_progress_initialises_witness :
  (RoutesV2.get_progress Fixtures.alice_user
     (facing [] (RoutesV2.get_progress Fixtures.alice_user
                   (facing [] Fixtures.without_progress)).2)).1
  = res_json (to_json RoutesV2.empty).
Proof.
  refine (proj1 (proj2 (proj2 (proj1
    (get_progress_initialises Fixtures.alice_user Fixtures.without_progress _ _))))).
  - vm_compute; reflexivity.
  - vm_compute. by left.
Defined.

(** C5 on the routers: the empty array is saved as the empty object;
    [server.js] keeps it. *)
Theorem routers_store_empty_array_as_object :
  (RoutesV2.post_progress Fixtures.alice_user (Some (Arr [])) Fixtures.with_alice).1
  = ServerJs.saved
  ∧ (RoutesV2.get_progress Fixtures.alice_user
       (RoutesV2.post_progress Fixtures.alice_user (Some (Arr [])) Fixtures.with_alice).2).1
    = res_json (JObj ∅)
  ∧ (RoutesV1.get_progress Fixtures.alice_user
       (RoutesV1.post_progress Fixtures.alice_user (Some (Arr [])) Fixtures.with_alice).2).1
    = res_json (JObj ∅)
  ∧ (ServerJs.get_progress Fixtures.alice_user
       (ServerJs.post_progress Fixtures.alice_user (Some (Arr [])) Fixtures.with_alice).2).1
    = res_json (JArr []).
Proof. repeat split; vm_compute; reflexivity. Qed.

(** C6: Mallory's registration commits between Alice's device lookup and
    her inserts.  Mallory is answered 201; Alice's insert into
    [device_registrations] violates the unique constraint, and she is told
    that her username is taken (409); only Mallory's rows are stored. *)
Theorem overtaken_registration_is_a_username_conflict :
  status (RoutesV2.post_register Fixtures.mallory Fixtures.fresh).1 = 201
  ∧ (RoutesV2.post_register Fixtures.alice Fixtures.overtaken).1
    = Registration.username_conflict
  ∧ (ServerJs.post_register Fixtures.alice Fixtures.overtaken).1
    = Registration.username_conflict
  ∧ status Registration.username_conflict = 409
  ∧ u_username <$> users (rows (committed
       (RoutesV2.post_register Fixtures.alice Fixtures.overtaken).2)) = ["mallory"].
Proof. repeat split; vm_compute; reflexivity. Qed.

(** The same answer when the violation is injected at the fifth round
    trip, the insert into [device_registrations]. *)
Lemma device_insert_violation_is_a_username_conflict :
  (RoutesV2.post_register Fixtures.alice
     (facing [None; None; None; None;
              Some (sql_error unique_violation
                      "duplicate key value violates unique constraint device_registrations_device_id_key")]
             Fixtures.fresh)).1
  = Registration.username_conflict.
Proof. vm_compute; reflexivity. Qed.

(** C7 at work: no header, a header without a token, and a token that does
    not verify. *)
Lemma session_guard_rejects_witness :
  ServerJs.protected ServerJs.get_progress None Fixtures.with_alice
  = (sendStatus 401, Fixtures.with_alice)
  ∧ ServerJs.protected ServerJs.get_progress (Some "Bearer forged") Fixtures.with_alice
    = (sendStatus 403, Fixtures.with_alice).
Proof.
  split.
  - apply (proj1 (session_guard_rejects ServerJs.get_progress None Fixtures.with_alice)).
    reflexivity.
  - apply (proj2 (session_guard_rejects ServerJs.get_progress (Some "Bearer forged")
                    Fixtures.with_alice) "forged"); reflexivity.
Defined.




(** C10 at work: the three fetches of [Fixtures.platform] fail each in its
    own way. *)
Lemma image_proxy_falls_back_witness :
  ∃ lastStatus,
    status (RoutesV2.get_image (Some Fixtures.picture)) = 200
    ∧ RoutesV2.getHeader "Content-Type" (headers (RoutesV2.get_image (Some Fixtures.picture)))
      = Some "image/svg+xml; charset=utf-8"
    ∧ body (RoutesV2.get_image (Some Fixtures.picture))
      = Text (RoutesV2.placeholder_svg lastStatus).
Proof.
  apply (image_proxy_falls_back (Some Fixtures.picture)
           (RoutesV2.Url "https:" "lh3.googleusercontent.com"
                         "https://lh3.googleusercontent.com" Fixtures.picture)).
  - discriminate.
  - reflexivity.
  - reflexivity.
  - vm_compute; reflexivity.
  - intros [|[|n]] hs; reflexivity.
Defined.

(** ** Further properties on concrete deployments *)

#[local] Existing Instances Examples.logger Examples.cms Examples.crypto.

Lemma fresh_is_consistent : consistent (committed Fixtures.fresh).
Proof.
  repeat split; try constructor.
  intros uid [row Hrow]. simpl in Hrow. by rewrite lookup_empty in Hrow.
Qed.






(** X5 at work: a registration, a refused one that meets a failure, and a
    save. *)
Lemma run_keeps_consistent_witness :
  consistent (committed
    (run [(POST_register routes_v2 Fixtures.alice, []);
          (POST_register server_js Fixtures.mallory, [None; Some (JsError None "timeout")]);
          (POST_progress routes_v1 Fixtures.alice_user (Some Examples.week), [])]
         Fixtures.fresh)).
Proof.
  apply (run_keeps_consistent
           [(POST_register routes_v2 Fixtures.alice, []);
            (POST_register server_js Fixtures.mallory, [None; Some (JsError None "timeout")]);
            (POST_progress routes_v1 Fixtures.alice_user (Some Examples.week), [])]
           Fixtures.fresh).
  apply fresh_is_consistent.
Defined.



(** X9 at work: the save is sent three times, the third meets a failure. *)
Lemma replayed_save_changes_nothing_witness :
  p_data <$> progress (rows (committed
    (run (map (λ p, (POST_progress routes_v1 Fixtures.alice_user (Some Examples.week), p))
              [[]; [Some (JsError None "timeout")]])
         (handle (POST_progress routes_v1 Fixtures.alice_user (Some Examples.week))
                 (facing [] Fixtures.with_alice)).2)))
  = p_data <$> progress (rows (committed
      (handle (POST_progress routes_v1 Fixtures.alice_user (Some Examples.week))
              (facing [] Fixtures.with_alice)).2)).
Proof.
  apply (replayed_save_changes_nothing routes_v1 Fixtures.alice_user Examples.week []
           [[]; [Some (JsError None "timeout")]] Fixtures.with_alice).
  vm_compute; reflexivity.
Defined.

(** X10 at work: the array [[1]] through the current router. *)
Lemma routers_refuse_arrays_witness :
  status (handle (POST_progress routes_v2 Fixtures.alice_user (Some (Arr [JNum 1])))
                 (facing [] Fixtures.with_alice)).1 = 500
  ∧ committed (handle (POST_progress routes_v2 Fixtures.alice_user (Some (Arr [JNum 1])))
                      (facing [] Fixtures.with_alice)).2
    = committed Fixtures.with_alice.
Proof.
  apply (routers_refuse_arrays routes_v2 Fixtures.alice_user (JNum 1) [] []
           Fixtures.with_alice).
  discriminate.
Defined.

(** X12 at work: a token for user 7 on the empty database. *)
Lemma save_requires_a_user_witness :
  status (handle (POST_progress server_js (Identity 7 "ghost") (Some Examples.week))
                 (facing [] Fixtures.fresh)).1 = 500
  ∧ committed (handle (POST_progress server_js (Identity 7 "ghost") (Some Examples.week))
                      (facing [] Fixtures.fresh)).2
    = committed Fixtures.fresh.
Proof.
  apply (save_requires_a_user server_js (Identity 7 "ghost") Examples.week []
           Fixtures.fresh).
  - reflexivity.
  - by intros ?%Exists_nil.
Defined.

(** X14 at work: Alice's token behind the scheme [Basic]. *)
Lemma guard_ignores_the_scheme_witness :
  ServerJs.protected ServerJs.get_progress (Some "Basic jwt:alice") Fixtures.with_alice
  = ServerJs.get_progress Fixtures.alice_user Fixtures.with_alice
  ∧ ServerJs.protected ServerJs.get_progress (Some "Basic jwt:alice and more")
      Fixtures.with_alice
    = ServerJs.get_progress Fixtures.alice_user Fixtures.with_alice.
Proof.
  apply (guard_ignores_the_scheme ServerJs.get_progress "Basic" "jwt:alice" "and more"
           Fixtures.alice_user Fixtures.with_alice).
  - repeat constructor; discriminate.
  - repeat constructor; discriminate.
  - reflexivity.
Defined.

(** X16 at work: an address that does not parse, on two networks. *)
Lemma image_proxy_refuses_without_fetching_witness :
  status (@RoutesV2.get_image Fixtures.platform (Some "javascript:alert(1)")) = 400
  ∧ @RoutesV2.get_image Fixtures.platform (Some "javascript:alert(1)")
    = @RoutesV2.get_image Examples.mirror (Some "javascript:alert(1)").
Proof.
  apply (image_proxy_refuses_without_fetching Fixtures.platform Examples.mirror
           (Some "javascript:alert(1)")).
  - reflexivity.
  - right. left. reflexivity.
Defined.

(** X17 at work: the first fetch is refused, the second delivers. *)
Lemma image_proxy_passes_through_witness :
  @RoutesV2.get_image Examples.mirror (Some Fixtures.picture)
  = passed_through (Some "image/png") [137; 80; 78; 71].
Proof.
  apply (@image_proxy_passes_through Examples.mirror (Some Fixtures.picture)
           (RoutesV2.Url "https:" "lh3.googleusercontent.com"
                         "https://lh3.googleusercontent.com" Fixtures.picture)
           1%nat RoutesV2.COMMON 200 (Some "image/png") (Resolved "")
           [137; 80; 78; 71]).
  - discriminate.
  - reflexivity.
  - reflexivity.
  - by vm_compute.
  - reflexivity.
  - intros [|i] t' Hi Ht'; [reflexivity|lia].
  - reflexivity.
  - reflexivity.
Defined.

(** X18 at work: the third fetch of [Fixtures.platform] breaks off while
    the body is read. *)
Lemma placeholder_reports_last_failure_witness :
  RoutesV2.getHeader "X-Upstream-Status" (headers (RoutesV2.get_image (Some Fixtures.picture)))
  = Some "0"
  ∧ body (RoutesV2.get_image (Some Fixtures.picture)) = Text (RoutesV2.placeholder_svg 0).
Proof.
  assert (Hfail : ∀ n hs, RoutesV2.fetch_failed
            (RoutesV2.fetch n Fixtures.picture hs) = true)
    by (intros [|[|n]] hs; reflexivity).
  exact (placeholder_reports_last_failure (Some Fixtures.picture)
           (RoutesV2.Url "https:" "lh3.googleusercontent.com"
                         "https://lh3.googleusercontent.com" Fixtures.picture)
           ltac:(discriminate) eq_refl eq_refl eq_refl Hfail).
Defined.

(** X19 at work: the 121st entry of the visitor is dropped. *)
Lemma log_limit_per_address_witness :
  (ClientLog.serve_logs Examples.burst ∅).1 !! 121%nat
  = Some (status_json 429 ClientLog.ok_true, [])
  ∧ (status (status_json 429 ClientLog.ok_true) = 429
     <-> (120 <= length (filter (λ r, ClientLog.client_ip r.2 = "203.0.113.7")
                           (take 121 Examples.burst)))%nat)
  ∧ (status (status_json 429 ClientLog.ok_true) = 429
     -> @nil ClientLog.log_call = []).
Proof.
  split; [vm_compute; reflexivity|].
  apply (log_limit_per_address "203.0.113.7" 1000 Examples.burst ∅ 121 1500
           Examples.visitor (status_json 429 ClientLog.ok_true) []).
  - apply lookup_empty.
  - intros now' req' Hin _. unfold Examples.burst in Hin.
    apply elem_of_app in Hin as [Hin|Hin].
    + apply elem_of_replicate in Hin as [[= -> ->] _]. lia.
    + apply elem_of_cons in Hin as [[= -> ->]|Hin]; [lia|].
      apply elem_of_replicate in Hin as [[= -> ->] _]. lia.
  - reflexivity.
  - reflexivity.
  - vm_compute; reflexivity.
Defined.

(** X20 at work: the 130th entry is dropped, the one a minute later is
    taken. *)
Lemma log_limit_expires_witness :
  (ClientLog.serve_logs Examples.pause ∅).1 !! 129%nat
  = Some (status_json 429 ClientLog.ok_true, [])
  ∧ fst <$> (ClientLog.serve_logs Examples.pause ∅).1 !! 130%nat
    = Some (res_json ClientLog.ok_true)
  ∧ status (res_json ClientLog.ok_true) ≠ 429.
Proof.
  split; [vm_compute; reflexivity|]. split; [vm_compute; reflexivity|].
  eapply (log_limit_expires Examples.pause 130 61001 Examples.visitor
            (res_json ClientLog.ok_true)).
  - reflexivity.
  - intros i now' req' Hi Hlook. unfold Examples.pause in Hlook.
    rewrite lookup_app_l in Hlook by (rewrite length_replicate; lia).
    apply lookup_replicate in Hlook as [[= -> ->] _]. lia.
  - vm_compute; reflexivity.
Defined.

(** X21 at work: the level [constructor] and twelve arguments. *)
Lemma log_calls_are_sanitised_witness :
  ClientLog.method <$> (ClientLog.post_log 1000 Examples.prankster ∅).2 = ["info"]
  ∧ Forall (λ call,
       ClientLog.method call ∈ ClientLog.allowed
       ∧ ∀ page ua ip user args ts,
           ClientLog.detail call = ClientLog.ClientExtra page ua ip user (Some args) ts ->
           (length args <= 10)%nat)
      (ClientLog.post_log 1000 Examples.prankster ∅).2.
Proof.
  split; [vm_compute; reflexivity|].
  apply Forall_forall. intros call Hin.
  exact (log_calls_are_sanitised 1000 Examples.prankster ∅ call Hin).
Defined.

(** X22 at work: the logger fails on the visitor's entry. *)
Lemma log_always_acknowledges_witness :
  body (ClientLog.post_log 1000 Examples.visitor ∅).1.1 = Json ClientLog.ok_true
  ∧ (status (ClientLog.post_log 1000 Examples.visitor ∅).1.1 = 200
     ∨ status (ClientLog.post_log 1000 Examples.visitor ∅).1.1 = 429).
Proof.
  apply (log_always_acknowledges 1000 Examples.visitor ∅).
  intros call err Hdetail. unfold ClientLog.logger_throws. simpl. by rewrite Hdetail.
Defined.

(** X24 at work: the subject given once in a list, the chapter with a
    suffix. *)
Lemma materials_address_witness :
  Materials.get_materials (Some (Materials.QArray [Materials.QString "MATH000001"]))
                          (Some (Materials.QString "3rd"))
  = Materials.relay (Materials.fetch Examples.lesson [("Accept", "application/json")]).
Proof.
  exact (materials_address (Some (Materials.QArray [Materials.QString "MATH000001"]))
           (Some (Materials.QString "3rd")) "https://cms.example/exec" 3
           eq_refl eq_refl ltac:(lia) eq_refl ltac:(discriminate)).
Defined.

(** X25 at work: the lesson of the CMS. *)
Lemma materials_passes_json_only_witness :
  ∃ data, Materials.get_materials (Some (Materials.QString "MATH000001"))
                                  (Some (Materials.QString "3"))
          = res_json data
          ∧ Materials.fetch Examples.lesson [("Accept", "application/json")]
            = Materials.Reply 200 (Some "application/json; charset=utf-8")
                              (Resolved "{}") (Resolved data).
Proof.
  destruct (materials_passes_json_only (Some (Materials.QString "MATH000001"))
              (Some (Materials.QString "3")))
    as (n & st & content_type & txt & data & Hparse & Hfetch & Hst & Hjson & Hsent);
    [vm_compute; reflexivity|].
  exists data. split; [exact Hsent|].
  injection Hparse as <-. vm_compute in Hfetch. injection Hfetch as <- <- <- <-.
  reflexivity.
Defined.

(** X27 at work: the store fails at the third statement. *)
Lemma startup_keeps_current_progress_witness :
  Startup.progress
    (Startup.prepared [None; None; Some (JsError None "timeout")] Examples.current)
  = Startup.progress Examples.current.
Proof.
  apply (startup_keeps_current_progress [None; None; Some (JsError None "timeout")]
           Examples.current (Startup.Jsonb {[ 1 := ProgressRow (JObj ∅) 900 ]}));
    [reflexivity|by vm_compute].
Defined.

(** X28 at work: the text table is replaced once. *)
Lemma startup_is_idempotent_witness :
  Startup.progress (Startup.prepared [] Examples.legacy) = Some (Startup.Jsonb ∅)
  ∧ Startup.prepared [None] (Startup.prepared [] Examples.legacy)
    = Startup.prepared [] Examples.legacy.
Proof.
  split; [vm_compute; reflexivity|].
  destruct (startup_is_idempotent [] [None] Examples.legacy)
    as (_ & _ & _ & _ & Hagain); [constructor|by repeat constructor|].
  exact Hagain.
Defined.

(** X29 at work: the store fails when the new table is created. *)
Lemma startup_can_leave_no_progress_witness :
  (Startup.initializeDatabase
     (Startup.Server Examples.legacy
        [None; None; None; None; None; Some (JsError None "timeout")])).1 = Resolved ()
  ∧ Startup.progress
      (Startup.prepared [None; None; None; None; None; Some (JsError None "timeout")]
         Examples.legacy) = None.
Proof.
  apply (startup_can_leave_no_progress
           [None; None; None; None; None; Some (JsError None "timeout")]
           Examples.legacy (JsError None "timeout"));
    [by vm_compute|reflexivity|reflexivity].
Defined.

(** X30 at work: a browser without a device id. *)
Lemma device_id_is_stable_witness :
  Browser.getDeviceId (Browser.getDeviceId (Browser.Page ∅ 0)).2
  = ((Browser.getDeviceId (Browser.Page ∅ 0)).1, (Browser.getDeviceId (Browser.Page ∅ 0)).2)
  ∧ (Browser.getDeviceId (Browser.Page ∅ 0)).1 = "3f0c9d1e-0000-4000-8000-0".
Proof.
  destruct (device_id_is_stable (Browser.Page ∅ 0)) as [Hsame _];
    [intros n; simpl; discriminate|].
  split; [exact Hsame|vm_compute; reflexivity].
Defined.
